(** * Torque ingest demultiplexer: a shallow embedding and its properties

    Source: [homeassistant/components/torque/sensor.py] and
    [homeassistant/components/torque/const.py].

    Conventions of the embedding.
    - A Python [str] is a [string]; one [ascii] stands for one code point in
      U+0000..U+00FF, so the text covered is the Latin-1 part of Unicode.
    - A metric id ([pid]) is a Python [int], here a [Z].
    - [request.query] is a multidict: an ordered list of key/value pairs in
      which a key may occur several times; [data[key]] is the first value
      stored under [key] and iteration yields every key, duplicates included.
    - [sensors] is the dictionary shared by the view and the handler; an
      entity object is reachable through its slot of that dictionary only, so
      the slot's key serves as the reference to the object.
    - Calls into the host ([hass.async_add_job], [async_write_ha_state]) are
      recorded, in order, in a call log. *)

From Stdlib Require Import ZArith Ascii String List Bool Lia.
From stdpp Require Import base option list gmap strings.

Import ListNotations.
Local Open Scope Z_scope.

(** ** Text *)

Module Text.

Definition code (c : ascii) : Z := Z.of_N (N_of_ascii c).

Definition between (lo hi : Z) (c : ascii) : bool :=
  (lo <=? code c) && (code c <=? hi).

Definition is_char (n : Z) (c : ascii) : bool := code c =? n.

(** [\w] of a [str] pattern: alphanumeric code points and the underscore.
    Above U+007F these are the letters and numeric characters of Latin-1. *)
Definition is_word (c : ascii) : bool :=
  between 48 57 c || between 65 90 c || is_char 95 c || between 97 122 c
  || is_char 170 c || between 178 179 c || is_char 181 c
  || between 185 186 c || between 188 190 c
  || between 192 214 c || between 216 246 c || between 248 255 c.

(** What [int] skips around a literal: the white space of ASCII, and the
    Unicode white space above U+007F. *)
Definition is_int_space (c : ascii) : bool :=
  between 9 13 c || is_char 32 c || is_char 133 c || is_char 160 c.

(** The value of a digit in base 36 (the table [int] consults). *)
Definition digit_value (c : ascii) : option Z :=
  if between 48 57 c then Some (code c - 48)
  else if between 97 122 c then Some (code c - 97 + 10)
  else if between 65 90 c then Some (code c - 65 + 10)
  else None.

Definition hex_value (c : ascii) : option Z :=
  match digit_value c with
  | Some d => if d <? 16 then Some d else None
  | None => None
  end.

Definition is_empty (s : string) : bool :=
  match s with EmptyString => true | String _ _ => false end.

Fixpoint drop (n : nat) (s : string) : string :=
  match n, s with
  | O, _ => s
  | S n', String _ s' => drop n' s'
  | S _, EmptyString => EmptyString
  end.

(** [s.startswith(p)] *)
Definition startswith (p s : string) : bool := String.prefix p s.

(** [p in s] *)
Fixpoint contains (p s : string) : bool :=
  startswith p s ||
  match s with
  | EmptyString => false
  | String _ s' => contains p s'
  end.

(** [s.replace(old, new)] for a non-empty [old]: the occurrences of [old]
    are found from the left and do not overlap. [skip] counts the
    characters of a match that are still to be passed over. *)
Fixpoint replace_from (skip : nat) (old new s : string) : string :=
  match s with
  | EmptyString => EmptyString
  | String c s' =>
      match skip with
      | S k => replace_from k old new s'
      | O =>
          if startswith old s
          then new +:+ replace_from (String.length old - 1) old new s'
          else String c (replace_from O old new s')
      end
  end.

Definition replace (old new s : string) : string := replace_from O old new s.

(** The longest prefix of [s] made of characters satisfying [p]. *)
Fixpoint take_while (p : ascii -> bool) (s : string) : string :=
  match s with
  | EmptyString => EmptyString
  | String c s' => if p c then String c (take_while p s') else EmptyString
  end.

Fixpoint drop_while (p : ascii -> bool) (s : string) : string :=
  match s with
  | EmptyString => EmptyString
  | String c s' => if p c then drop_while p s' else s
  end.

Fixpoint all_chars (p : ascii -> bool) (s : string) : bool :=
  match s with
  | EmptyString => true
  | String c s' => p c && all_chars p s'
  end.

Fixpoint has_char (p : ascii -> bool) (s : string) : bool :=
  match s with
  | EmptyString => false
  | String c s' => p c || has_char p s'
  end.

End Text.

(** ** [int(value, 16)] *)

Module PyInt.
Import Text.

(** The digit loop of the parser: digits below the base and underscores
    are consumed; two underscores in a row, or an underscore at the end of
    the run, are refused. Returns the value, the number of digits read and
    the unread rest. *)
Fixpoint scan (s : string) (prev_underscore : bool) (acc : Z) (digits : nat)
  : option (Z * nat * string) :=
  match s with
  | EmptyString => if prev_underscore then None else Some (acc, digits, s)
  | String c s' =>
      if is_char 95 c then
        if prev_underscore then None else scan s' true acc digits
      else
        match hex_value c with
        | Some d => scan s' false (16 * acc + d) (S digits)
        | None => if prev_underscore then None else Some (acc, digits, s)
        end
  end.

(** A leading [0x] or [0X], and one underscore after it, are passed over. *)
Definition skip_base_prefix (s : string) : string :=
  match s with
  | String c0 (String c1 r) =>
      if is_char 48 c0 && (is_char 120 c1 || is_char 88 c1)
      then match r with
           | String c2 r' => if is_char 95 c2 then r' else r
           | EmptyString => r
           end
      else s
  | _ => s
  end.

Definition starts_with_underscore (s : string) : bool :=
  match s with
  | String c _ => is_char 95 c
  | EmptyString => false
  end.

Definition int16 (value : string) : option Z :=
  let s := drop_while is_int_space value in
  let '(negative, s) :=
    match s with
    | String c r =>
        if is_char 43 c then (false, r)
        else if is_char 45 c then (true, r)
        else (false, s)
    | EmptyString => (false, s)
    end in
  let s := skip_base_prefix s in
  if starts_with_underscore s then None
  else
    match scan s false 0 O with
    | Some (n, digits, rest) =>
        match digits with
        | O => None
        | S _ =>
            if is_empty (drop_while is_int_space rest)
            then Some (if negative then - n else n)
            else None
        end
    | None => None
    end.

End PyInt.

(** A character that no hexadecimal literal contains: neither a digit of
    base 16, nor the underscore, nor the [x] of the prefix. *)
Definition not_hexadecimal (c : ascii) : bool :=
  match Text.hex_value c with
  | Some _ => false
  | None => negb (Text.is_char 95 c || Text.is_char 120 c || Text.is_char 88 c)
  end.

(** ** Regular expressions of the shape [literal(\w+)], as [re.compile]
    builds them from the three key constants *)

Module Re.
Import Text.

Record pattern := Pattern { literal : string }.

(** [pattern.match(s)]: the match is anchored at the start of [s] only;
    the result is [group(1)], the longest run of word characters after the
    literal, which must not be empty. *)
Definition match_ (p : pattern) (s : string) : option string :=
  if startswith (literal p) s then
    let group1 := take_while is_word (drop (String.length (literal p)) s) in
    if is_empty group1 then None else Some group1
  else None.

End Re.

(** ** [request.query] *)

Module MultiDict.

Definition t := list (string * string).

(** [for key in data] *)
Definition keys (data : t) : list string := map fst data.

(** [data[key]], [None] standing for the [KeyError] of a missing key *)
Fixpoint getone (data : t) (key : string) : option string :=
  match data with
  | [] => None
  | (k, v) :: rest => if String.eqb key k then Some v else getone rest key
  end.

End MultiDict.

(** ** A Python [dict] whose iteration order is observed: keys are kept in
    the order of their first insertion, and a later assignment to a key
    replaces its value in place *)

Module PyDict.

Definition t (V : Type) := list (Z * V).

Fixpoint set {V} (k : Z) (v : V) (d : t V) : t V :=
  match d with
  | [] => [(k, v)]
  | (k', v') :: d' =>
      if Z.eqb k k' then (k, v) :: d' else (k', v') :: set k v d'
  end.

Fixpoint get {V} (d : t V) (k : Z) : option V :=
  match d with
  | [] => None
  | (k', v') :: d' => if Z.eqb k k' then Some v' else get d' k
  end.

Definition items {V} (d : t V) : list (Z * V) := d.

End PyDict.

(** ** Constants of [const.py] and [sensor.py] *)

Definition SENSOR_EMAIL_FIELD : string := "eml".
Definition SENSOR_NAME_KEY : Re.pattern := Re.Pattern "userFullName".
Definition SENSOR_UNIT_KEY : Re.pattern := Re.Pattern "userUnit".
Definition SENSOR_VALUE_KEY : Re.pattern := Re.Pattern "k".

Definition NAME_KEY : Re.pattern := SENSOR_NAME_KEY.
Definition UNIT_KEY : Re.pattern := SENSOR_UNIT_KEY.
Definition VALUE_KEY : Re.pattern := SENSOR_VALUE_KEY.

(** Modelled from the spec: [homeassistant.const.DEGREE] is imported by
    [sensor.py] and not part of the sources at hand; the specification calls
    it the actual degree character, U+00B0. *)
Definition DEGREE_SIGN : ascii := "176"%char.
Definition DEGREE : string := String DEGREE_SIGN EmptyString.

(** The Python literal with the doubled backslashes, which denotes eight
    characters: a backslash, [x], [C], [2], a backslash, [x], [B], [0]. A
    backslash escapes nothing in a string of this file. *)
Definition ESCAPED_DEGREE : string := "\xC2\xB0".

(** ** Entities, the shared table and the host *)

Record TorqueSensor := {
  _name : string;
  _unit : option string;
  _attr_unique_id : string;
  _state : option string
}.

#[global] Instance TorqueSensor_eq_dec : EqDecision TorqueSensor.
Proof. solve_decision. Defined.

(** [TorqueSensor.__init__]; [unique_id] is a [str], as the handler and the
    constructor annotate it. *)
Definition TorqueSensor__init__ (name : string) (unit : option string)
    (unique_id : string) : TorqueSensor :=
  {| _name := name;
     _unit := unit;
     _attr_unique_id := unique_id +:+ "_" +:+ name;
     _state := None |}.

Definition with_state (value : option string) (e : TorqueSensor) : TorqueSensor :=
  {| _name := _name e;
     _unit := _unit e;
     _attr_unique_id := _attr_unique_id e;
     _state := value |}.

(** Calls received by the host. An entity is named by its slot in the
    table. *)
Inductive call :=
| async_add_job_add_entities (batch : list Z)
| async_write_ha_state (entity : Z) (state : option string).

#[global] Instance call_eq_dec : EqDecision call.
Proof. solve_decision. Defined.

Record World := {
  sensors : gmap Z TorqueSensor;
  calls : list call
}.

Inductive exn :=
| KeyError (key : string)
| ValueError (literal : string).

Inductive outcome (A : Type) :=
| Returned (a : A)
| Raised (e : exn).
Arguments Returned {A} a.
Arguments Raised {A} e.

(** Computations over the world that may raise *)
Definition M (A : Type) : Type := World -> outcome A * World.

Definition ret {A} (a : A) : M A := fun w => (Returned a, w).

Definition bind {A B} (m : M A) (k : A -> M B) : M B :=
  fun w =>
    match m w with
    | (Returned a, w') => k a w'
    | (Raised e, w') => (Raised e, w')
    end.

Definition raise {A} (e : exn) : M A := fun w => (Raised e, w).

Declare Scope py_scope.
Delimit Scope py_scope with py.
Notation "x <- m ;; k" := (bind m (fun x => k))
  (at level 100, m at next level, right associativity) : py_scope.
Notation "m ;;; k" := (bind m (fun _ => k))
  (at level 100, right associativity) : py_scope.
Local Open Scope py_scope.

(** [convert_pid] *)
Definition convert_pid (value : string) : M Z :=
  match PyInt.int16 value with
  | Some n => ret n
  | None => raise (ValueError value)
  end.

(** [data[key]] *)
Definition getitem (data : MultiDict.t) (key : string) : M string :=
  match MultiDict.getone data key with
  | Some v => ret v
  | None => raise (KeyError key)
  end.

(** [pid in sensors] *)
Definition contains_pid (pid : Z) : M bool :=
  fun w => (Returned (bool_decide (is_Some (sensors w !! pid))), w).

(** [TorqueSensor.async_on_update], called on the entity in slot [self] *)
Definition async_on_update (self : Z) (value : string) : M unit :=
  fun w =>
    (Returned tt,
     {| sensors := alter (with_state (Some value)) self (sensors w);
        calls := calls w ++ [async_write_ha_state self (Some value)] |}).

(** [sensors[pid] = TorqueSensor(name, units.get(pid), unique_id)] *)
Definition store_sensor (pid : Z) (e : TorqueSensor) : M unit :=
  fun w => (Returned tt, {| sensors := <[pid := e]> (sensors w); calls := calls w |}).

(** [hass.async_add_job(add_entities, [sensors[pid]])] *)
Definition async_add_job (batch : list Z) : M unit :=
  fun w =>
    (Returned tt,
     {| sensors := sensors w;
        calls := calls w ++ [async_add_job_add_entities batch] |}).

(** ** [_addEntitiesFromRequest] *)

Record Request := { query : MultiDict.t }.

(** The unit text as the [elif is_unit] branch stores it *)
Definition normalize_unit (temp_unit : string) : string :=
  if Text.contains ESCAPED_DEGREE temp_unit
  then Text.replace ESCAPED_DEGREE DEGREE temp_unit
  else temp_unit.

(** The body of [for key in data] *)
Definition classify_key (data : MultiDict.t) (key : string)
    (pending : PyDict.t string * gmap Z string)
  : M (PyDict.t string * gmap Z string) :=
  let '(names, units) := pending in
  let is_name := Re.match_ NAME_KEY key in
  let is_unit := Re.match_ UNIT_KEY key in
  let is_value := Re.match_ VALUE_KEY key in
  match is_name with
  | Some group1 =>
      pid <- convert_pid group1 ;;
      v <- getitem data key ;;
      ret (PyDict.set pid v names, units)
  | None =>
  match is_unit with
  | Some group1 =>
      pid <- convert_pid group1 ;;
      temp_unit <- getitem data key ;;
      ret (names, <[pid := normalize_unit temp_unit]> units)
  | None =>
  match is_value with
  | Some group1 =>
      pid <- convert_pid group1 ;;
      known <- contains_pid pid ;;
      (if known : bool
       then v <- getitem data key ;; async_on_update pid v
       else ret tt) ;;;
      ret (names, units)
  | None => ret (names, units)
  end end end.

Fixpoint for_key_in (data : MultiDict.t) (keys : list string)
    (pending : PyDict.t string * gmap Z string)
  : M (PyDict.t string * gmap Z string) :=
  match keys with
  | [] => ret pending
  | key :: rest =>
      pending' <- classify_key data key pending ;;
      for_key_in data rest pending'
  end.

(** The body of [for pid, name in names.items()] *)
Definition create_entity (units : gmap Z string) (unique_id : string)
    (item : Z * string) : M unit :=
  let '(pid, name) := item in
  known <- contains_pid pid ;;
  if known : bool then ret tt
  else
    store_sensor pid (TorqueSensor__init__ name (units !! pid) unique_id) ;;;
    async_add_job [pid].

Fixpoint for_pid_name_in (items : list (Z * string)) (units : gmap Z string)
    (unique_id : string) : M unit :=
  match items with
  | [] => ret tt
  | item :: rest =>
      create_entity units unique_id item ;;;
      for_pid_name_in rest units unique_id
  end.

Definition NO_QUERY : string := "No Torque Query Parameters".
Definition OK : string := "OK!".

(** The statements of the handler, run to their end. The result is the text
    returned, or [None] for the bare [return]. *)
Definition handler_body (request : Request) (email : option string)
    (unique_id : string) : M (option string) :=
  match query request with
  | [] => ret (Some NO_QUERY)
  | _ :: _ =>
      let data := query request in
      reject <-
        match email with
        | None => ret false
        | Some expected =>
            sender <- getitem data SENSOR_EMAIL_FIELD ;;
            ret (negb (String.eqb expected sender))
        end ;;
      if reject : bool then ret None
      else
        pending <- for_key_in data (MultiDict.keys data) ([], ∅) ;;
        let '(names, units) := pending in
        for_pid_name_in (PyDict.items names) units unique_id ;;;
        ret (Some OK)
  end.

(** Calling an [async def] function runs none of its statements: the call
    yields a coroutine object, and the body runs when the object is
    awaited. *)
Inductive coroutine (A : Type) := Coroutine (body : M A).
Arguments Coroutine {A} body.

Definition await {A} (c : coroutine A) : M A :=
  match c with Coroutine body => body end.

Definition _addEntitiesFromRequest (request : Request) (email : option string)
    (unique_id : string) : coroutine (option string) :=
  Coroutine (handler_body request email unique_id).

(** ** [TorqueReceiveDataView] *)

Module TorqueReceiveDataView.

(** [self.sensors] and [self.add_entities] are the table and the host of
    the world. *)
Record t := { email : option string; unique_id : string }.

(** [get]: a plain function; it calls the handler, keeps nothing of the
    coroutine it gets back and ends without a [return] statement. Its first
    statement reads the host's handle off the application of the request,
    where the host has put it. *)
Definition get (self : t) (request : Request) : M (option string) :=
  let _coroutine := _addEntitiesFromRequest request (email self) (unique_id self) in
  ret None.

End TorqueReceiveDataView.

(** ** Reading a request key by key *)

(** The class the [if]/[elif] chain of the loop gives a key: the first of the
    three patterns that matches decides, and the identifier it captured is
    decoded. *)
Inductive key_class :=
| Name (pid : Z)
| Unit (pid : Z)
| Value (pid : Z)
| Ignored
| Malformed (literal : string).

#[global] Instance key_class_eq_dec : EqDecision key_class.
Proof. solve_decision. Defined.

Definition decode (tag : Z -> key_class) (group1 : string) : key_class :=
  match PyInt.int16 group1 with
  | Some pid => tag pid
  | None => Malformed group1
  end.

Definition classify (key : string) : key_class :=
  match Re.match_ NAME_KEY key with
  | Some group1 => decode Name group1
  | None =>
  match Re.match_ UNIT_KEY key with
  | Some group1 => decode Unit group1
  | None =>
  match Re.match_ VALUE_KEY key with
  | Some group1 => decode Value group1
  | None => Ignored
  end end end.

Definition is_malformed (key : string) : bool :=
  match classify key with Malformed _ => true | _ => false end.

(** The sender check of the handler lets the request through. *)
Definition sender_accepted (email : option string) (data : MultiDict.t) : Prop :=
  match email with
  | None => True
  | Some expected => MultiDict.getone data SENSOR_EMAIL_FIELD = Some expected
  end.

(** The statements of the handler after its two guards *)
Definition demultiplex (data : MultiDict.t) (unique_id : string)
  : M (option string) :=
  pending <- for_key_in data (MultiDict.keys data) ([], ∅) ;;
  let '(names, units) := pending in
  for_pid_name_in (PyDict.items names) units unique_id ;;;
  ret (Some OK).

(** The request carries [text] for [pid] in the class [tag]: the last key of
    that class and id, in iteration order, reads [text]. *)
Definition supplies (tag : Z -> key_class) (request : Request) (pid : Z)
    (text : string) : Prop :=
  exists keys1 key keys2,
    MultiDict.keys (query request) = keys1 ++ key :: keys2
    /\ classify key = tag pid
    /\ Forall (fun k => classify k <> tag pid) keys2
    /\ MultiDict.getone (query request) key = Some text.

(** The request has no key of the class [tag] for [pid]. *)
Definition silent (tag : Z -> key_class) (request : Request) (pid : Z) : Prop :=
  Forall (fun k => classify k <> tag pid) (MultiDict.keys (query request)).

(** The unit a request holds for [pid] once its keys are read *)
Definition pending_unit (request : Request) (pid : Z) (unit : option string)
  : Prop :=
  match unit with
  | Some u => exists text, supplies Unit request pid text /\ u = normalize_unit text
  | None => silent Unit request pid
  end.

(** ** Sequences of requests served by one view *)

Definition serve (view : TorqueReceiveDataView.t) (request : Request)
  : M (option string) :=
  await (_addEntitiesFromRequest request
           (TorqueReceiveDataView.email view)
           (TorqueReceiveDataView.unique_id view)).

(** The world after the requests have been handled one after the other,
    whatever each run returned or raised. *)
Fixpoint serve_all (view : TorqueReceiveDataView.t) (requests : list Request)
    (w : World) : World :=
  match requests with
  | [] => w
  | request :: rest => serve_all view rest (snd (serve view request w))
  end.

(** Who made an entity: the calls of a log that hand entity [pid] over. *)
Definition creations_of (pid : Z) (log : list call) : list call :=
  filter (fun c => c = async_add_job_add_entities [pid]) log.

(** ** Requests and worlds used as examples *)

Module Scenario.

Definition nothing : World := {| sensors := ∅; calls := [] |}.

(** A view without a sender filter, and one that expects a sender *)
Definition open_view : TorqueReceiveDataView.t :=
  {| TorqueReceiveDataView.email := None;
     TorqueReceiveDataView.unique_id := "car" |}.

Definition filtered_view : TorqueReceiveDataView.t :=
  {| TorqueReceiveDataView.email := Some "me@example.org";
     TorqueReceiveDataView.unique_id := "car" |}.

(** [userFullNameA1=Speed&userUnitA1=mph&kA1=55] *)
Definition speed_first : Request :=
  {| query := [("userFullNameA1", "Speed"); ("userUnitA1", "mph"); ("kA1", "55")] |}.

(** [kA1=60] *)
Definition speed_next : Request := {| query := [("kA1", "60")] |}.

(** [k5=42] *)
Definition value_only : Request := {| query := [("k5", "42")] |}.

(** A world whose table holds an entity for id [0x5]. *)
Definition with_rpm : World :=
  {| sensors := {[ 5 := TorqueSensor__init__ "RPM" (Some "rpm") "car" ]};
     calls := [] |}.

(** [k5=42&kzz=1]: the second key has no hexadecimal identifier. *)
Definition value_then_malformed : Request :=
  {| query := [("k5", "42"); ("kzz", "1")] |}.

(** [eml=you@example.org&k5=42] *)
Definition from_stranger : Request :=
  {| query := [("eml", "you@example.org"); ("k5", "42")] |}.

(** [userFullName5=Early], then
    [userFullName5=Late&userUnit5=km&k5=1] *)
Definition name_only : Request := {| query := [("userFullName5", "Early")] |}.
Definition name_unit_value : Request :=
  {| query := [("userFullName5", "Late"); ("userUnit5", "km"); ("k5", "1")] |}.

End Scenario.

(** ** Further notions about identifiers, the table and the call log *)

(** The number a string of hexadecimal digits denotes, read from the left
    and starting from [acc]; [None] when a character is no such digit. *)
Fixpoint hex_digits_value (s : string) (acc : Z) : option Z :=
  match s with
  | EmptyString => Some acc
  | String c s' =>
      match Text.hex_value c with
      | Some d => hex_digits_value s' (16 * acc + d)
      | None => None
      end
  end.

(** The world [async_setup_entry] hands to the view: the table it creates
    with [sensors: dict[int, TorqueSensor] = {}], and a host that has
    received no call yet. *)
Definition at_setup : World := {| sensors := ∅; calls := [] |}.

(** The states that the [async_write_ha_state] calls of entity [pid]
    wrote, in the order of the log *)
Definition writes_of (pid : Z) (log : list call) : list (option string) :=
  omap (fun c => match c with
                 | async_write_ha_state entity state =>
                     if Z.eqb entity pid then Some state else None
                 | async_add_job_add_entities _ => None
                 end) log.

(** The state that the last [async_write_ha_state] call of entity [pid]
    wrote; [None] when the log has no such call, which is not the same as
    a last call that wrote no value, [Some None]. *)
Definition last_written (pid : Z) (log : list call) : option (option string) :=
  last (writes_of pid log).

(** The batches handed to the add-entities collaborator, in order *)
Definition batches (log : list call) : list (list Z) :=
  omap (fun c => match c with
                 | async_add_job_add_entities batch => Some batch
                 | async_write_ha_state _ _ => None
                 end) log.

(** Table and host agree on what was created: the batches handed over are
    one-element batches, one for each slot of the table and no other, none
    twice. *)
Definition handed_over_once (w : World) : Prop :=
  exists order,
    NoDup order
    /\ batches (calls w) = map (fun pid => [pid]) order
    /\ forall pid, pid ∈ order <-> is_Some (sensors w !! pid).

(** Table and host agree on the values. Every state write carried a text.
    For an id without a slot the log has no state write at all. For an id
    with a slot, the value of the entity is the text its last state write
    carried, and the entity has no value when the log has no state write
    for it. *)
Definition values_as_written (w : World) : Prop :=
  forall pid,
    Forall is_Some (writes_of pid (calls w))
    /\ match sensors w !! pid with
       | Some e =>
           match last_written pid (calls w) with
           | Some state => _state e = state
           | None => _state e = None
           end
       | None => writes_of pid (calls w) = []
       end.

(** A request that sends one name for two ids *)
Definition two_ids_one_name : Request :=
  {| query := [("userFullName5", "Speed"); ("userFullName6", "Speed")] |}.



(** ** [_async_cloudhook_generate_url] *)

Module Cloudhook.

Definition CONF_CLOUDHOOK_URL : string := "cloudhook_url".

(** What the function can raise: the [KeyError] of a missing entry, and
    what the cloud collaborator raises, a [ValueError] or anything else. *)
Inductive error :=
| MissingKey (key : string)
| CloudValueError
| CloudError (what : string).

Section Collaborators.

(** [homeassistant.const.CONF_WEBHOOK_ID] and the two functions of
    [homeassistant.components.cloud] are imported by [sensor.py]; they are
    taken as they come. [Cloud] is whatever state the cloud service keeps. A
    call returns normally ([None], or [inl url]) or raises. *)
Context (CONF_WEBHOOK_ID : string) {Cloud : Type}
  (async_delete_cloudhook : string -> Cloud -> option error * Cloud)
  (async_create_cloudhook : string -> Cloud -> (string + error) * Cloud).

(** [entry.data], a mapping with text keys, and the cloud service *)
Record Host := { entry_data : gmap string string; cloud : Cloud }.

Definition _async_cloudhook_generate_url (h : Host) : (string + error) * Host :=
  match entry_data h !! CONF_CLOUDHOOK_URL with
  | Some url => (inl url, h)
  | None =>
      match entry_data h !! CONF_WEBHOOK_ID with
      | None => (inr (MissingKey CONF_WEBHOOK_ID), h)
      | Some webhook_id =>
          (* with contextlib.suppress(ValueError): delete *)
          let '(deleted, cloud1) := async_delete_cloudhook webhook_id (cloud h) in
          match deleted with
          | Some (CloudError what) =>
              (inr (CloudError what), {| entry_data := entry_data h; cloud := cloud1 |})
          | Some (MissingKey key) =>
              (inr (MissingKey key), {| entry_data := entry_data h; cloud := cloud1 |})
          | Some CloudValueError | None =>
              let '(created, cloud2) := async_create_cloudhook webhook_id cloud1 in
              match created with
              | inl webhook_url =>
                  (inl webhook_url,
                   {| entry_data := <[CONF_CLOUDHOOK_URL := webhook_url]> (entry_data h);
                      cloud := cloud2 |})
              | inr e => (inr e, {| entry_data := entry_data h; cloud := cloud2 |})
              end
          end
      end
  end.

End Collaborators.

(** A cloud service that logs its calls, knows no hook to delete and makes
    up the address of the hook it creates *)
Definition logging_delete (webhook_id : string) (log : list string)
  : option error * list string :=
  (Some CloudValueError, log ++ ["delete " +:+ webhook_id]).

Definition logging_create (webhook_id : string) (log : list string)
  : (string + error) * list string :=
  (inl ("https://hooks.example/" +:+ webhook_id), log ++ ["create " +:+ webhook_id]).

(** An entry with a webhook id and no address yet, the host after a first
    call on it, and an entry without a webhook id *)
Definition unregistered : @Host (list string) :=
  {| entry_data := {[ "webhook_id" := "abc" ]}; cloud := [] |}.

Definition registered : @Host (list string) :=
  snd (_async_cloudhook_generate_url "webhook_id" logging_delete logging_create
         unregistered).

Definition without_webhook : @Host (list string) :=
  {| entry_data := ∅; cloud := [] |}.

End Cloudhook.

(** ** [streamlabswater/sensor.py] *)

Module Streamlabs.

(** The names [sensor.py] imports from modules that are not modelled: the
    type of a state value (a number), the unit and the device class of the
    three descriptions, and the domain of the integration. *)
Class Imports := {
  StateType : Type;
  UnitOfVolume : Type;
  GALLONS : UnitOfVolume;
  SensorDeviceClass : Type;
  WATER : SensorDeviceClass;
  DOMAIN : string
}.

Section WithImports.
Context `{Imports}.

(** Modelled from the spec: [StreamlabsData] is declared in the
    coordinator module; the specification gives it three precomputed
    numeric fields, daily, monthly and yearly usage, and [sensor.py] reads
    these and the name of the location. *)
Record StreamlabsData := {
  name : string;
  daily_usage : StateType;
  monthly_usage : StateType;
  yearly_usage : StateType
}.

Record StreamlabsWaterSensorEntityDescription := {
  key : string;
  translation_key : string;
  native_unit_of_measurement : UnitOfVolume;
  device_class : SensorDeviceClass;
  value_fn : StreamlabsData -> StateType
}.

Definition SENSORS : list StreamlabsWaterSensorEntityDescription :=
  [ {| key := "daily_usage";
       translation_key := "daily_usage";
       native_unit_of_measurement := GALLONS;
       device_class := WATER;
       value_fn := fun data => daily_usage data |};
    {| key := "monthly_usage";
       translation_key := "monthly_usage";
       native_unit_of_measurement := GALLONS;
       device_class := WATER;
       value_fn := fun data => monthly_usage data |};
    {| key := "yearly_usage";
       translation_key := "yearly_usage";
       native_unit_of_measurement := GALLONS;
       device_class := WATER;
       value_fn := fun data => yearly_usage data |} ].

Record DeviceInfo := {
  identifiers : list (string * string);
  device_name : string
}.

Record StreamLabsSensor := {
  _location_id : string;
  _attr_unique_id : string;
  entity_description : StreamlabsWaterSensorEntityDescription;
  _attr_device_info : DeviceInfo
}.

(** [coordinator.data]: a [dict] from location ids to data, in the order of
    its keys *)
Definition CoordinatorData := list (string * StreamlabsData).

(** [coordinator.data[location_id]] *)
Fixpoint getitem (data : CoordinatorData) (location_id : string)
  : outcome StreamlabsData :=
  match data with
  | [] => Raised (KeyError location_id)
  | (k, v) :: rest =>
      if String.eqb location_id k then Returned v else getitem rest location_id
  end.

(** [StreamLabsSensor.location_data] *)
Definition location_data (self : StreamLabsSensor) (data : CoordinatorData)
  : outcome StreamlabsData :=
  getitem data (_location_id self).

(** [StreamLabsSensor.native_value] *)
Definition native_value (self : StreamLabsSensor) (data : CoordinatorData)
  : outcome StateType :=
  match location_data self data with
  | Returned d => Returned (value_fn (entity_description self) d)
  | Raised e => Raised e
  end.

(** [StreamLabsSensor.__init__]: the device name is read through
    [location_data] once the location id is set. *)
Definition StreamLabsSensor__init__ (data : CoordinatorData)
    (location_id : string)
    (entity_description : StreamlabsWaterSensorEntityDescription)
  : outcome StreamLabsSensor :=
  match getitem data location_id with
  | Returned d =>
      Returned
        {| _location_id := location_id;
           _attr_unique_id := location_id +:+ "-" +:+ key entity_description;
           entity_description := entity_description;
           _attr_device_info :=
             {| identifiers := [(DOMAIN, location_id)];
                device_name := name d |} |}
  | Raised e => Raised e
  end.

(** The entities of a generator, taken one after the other until one of
    them raises *)
Fixpoint collect {A} (items : list (outcome A)) : outcome (list A) :=
  match items with
  | [] => Returned []
  | Raised e :: _ => Raised e
  | Returned a :: rest =>
      match collect rest with
      | Returned l => Returned (a :: l)
      | Raised e => Raised e
      end
  end.

(** [async_setup_entry]: the entities handed to [async_add_entities], for
    each location of the coordinator's data and each description *)
Definition async_setup_entry (data : CoordinatorData)
  : outcome (list StreamLabsSensor) :=
  collect
    (flat_map
       (fun location_id =>
          map (fun entity_description =>
                 StreamLabsSensor__init__ data location_id entity_description)
              SENSORS)
       (map fst data)).

(** The sensor [__init__] builds once the data [d] of its location is
    found *)
Definition sensor_of (location_id : string) (d : StreamlabsData)
    (description : StreamlabsWaterSensorEntityDescription) : StreamLabsSensor :=
  {| _location_id := location_id;
     _attr_unique_id := location_id +:+ "-" +:+ key description;
     entity_description := description;
     _attr_device_info :=
       {| identifiers := [(DOMAIN, location_id)]; device_name := name d |} |}.

End WithImports.

(** The keys of the three descriptions, in the order of [SENSORS] *)
Definition description_keys : list string :=
  ["daily_usage"; "monthly_usage"; "yearly_usage"].

(** Numbers as integers, for the examples *)
Definition example_imports : Imports :=
  {| StateType := Z;
     UnitOfVolume := string;
     GALLONS := "gal";
     SensorDeviceClass := string;
     WATER := "water";
     DOMAIN := "streamlabswater" |}.

Definition two_homes : @CoordinatorData example_imports :=
  [ ("home", @Build_StreamlabsData example_imports "Home" 12 340 4100);
    ("cabin", @Build_StreamlabsData example_imports "Cabin" 0 25 310) ].

(** The sensor of the monthly usage of the second location *)
Definition cabin_monthly : @StreamLabsSensor example_imports :=
  sensor_of "cabin" (@Build_StreamlabsData example_imports "Cabin" 0 25 310)
    (@Build_StreamlabsWaterSensorEntityDescription example_imports
       "monthly_usage" "monthly_usage" GALLONS WATER
       (fun data => monthly_usage data)).

End Streamlabs.

(** * Properties *)

#[local] Arguments String.append : simpl nomatch.
#[local] Arguments Text.startswith : simpl never.

(** ** Text *)

Module TextFacts.
Import Text.

Lemma startswith_empty s : startswith EmptyString s = true.
Proof. destruct s; reflexivity. Qed.

Lemma startswith_cons a p b s :
  startswith (String a p) (String b s) = true <-> a = b /\ startswith p s = true.
Proof.
  unfold startswith; simpl.
  destruct (ascii_dec a b); intuition congruence.
Qed.

Lemma startswith_append p r : startswith p (p +:+ r) = true.
Proof.
  induction p as [|a p IH]; simpl.
  - apply startswith_empty.
  - apply startswith_cons; auto.
Qed.

Lemma startswith_inv p s :
  startswith p s = true -> s = p +:+ drop (String.length p) s.
Proof.
  revert s; induction p as [|a p IH]; intros s H; simpl.
  - reflexivity.
  - destruct s as [|b s]; [discriminate|].
    apply startswith_cons in H as [-> H]. simpl. f_equal. now apply IH.
Qed.

Lemma drop_append p r : drop (String.length p) (p +:+ r) = r.
Proof. induction p; simpl; auto. Qed.

Lemma contains_cons p c s :
  contains p (String c s) = startswith p (String c s) || contains p s.
Proof. reflexivity. Qed.

Lemma contains_cons_alt p s :
  contains p s = startswith p s || match s with
                                   | EmptyString => false
                                   | String _ s' => contains p s'
                                   end.
Proof. destruct s; reflexivity. Qed.

Lemma contains_cons_false p c s :
  contains p (String c s) = false ->
  startswith p (String c s) = false /\ contains p s = false.
Proof. rewrite contains_cons. apply orb_false_elim. Qed.

(** A match that has been found is passed over as a whole. *)
Lemma replace_from_drop old new k s :
  replace_from k old new s = replace old new (drop k s).
Proof.
  revert k; induction s as [|c s IH]; intros [|k]; simpl; auto.
Qed.

Lemma replace_cons old new c s :
  replace old new (String c s) =
  if startswith old (String c s)
  then new +:+ replace old new (drop (String.length old - 1) s)
  else String c (replace old new s).
Proof.
  rewrite <- (replace_from_drop old new (String.length old - 1) s).
  reflexivity.
Qed.

Lemma replace_absent old new s :
  contains old s = false -> replace old new s = s.
Proof.
  induction s as [|c s IH]; intros H; [reflexivity|].
  apply contains_cons_false in H as [H1 H2].
  rewrite replace_cons, H1. f_equal. auto.
Qed.

(** What the result of a replacement starts with, the text started with
    already, unless the replacing character is part of it. *)
Lemma startswith_replace old d p s :
  has_char (fun c => if ascii_dec d c then true else false) p = false ->
  startswith p (replace old (String d EmptyString) s) = true ->
  startswith p s = true.
Proof.
  revert s; induction p as [|a p IH]; intros s Hp H.
  - apply startswith_empty.
  - simpl in Hp. apply orb_false_elim in Hp as [Ha Hp].
    destruct s as [|c s]; [discriminate|].
    rewrite replace_cons in H.
    destruct (startswith old (String c s)).
    + simpl in H. apply startswith_cons in H as [-> _].
      destruct (ascii_dec d d); [discriminate|contradiction].
    + apply startswith_cons in H as [-> H].
      apply startswith_cons. auto.
Qed.

Lemma contains_replace_from old d k s :
  has_char (fun c => if ascii_dec d c then true else false) old = false ->
  is_empty old = false ->
  contains old (replace_from k old (String d EmptyString) s) = false.
Proof.
  intros Hold Hne.
  revert k; induction s as [|c s IH]; intros k.
  - destruct k; simpl; destruct old; [discriminate|reflexivity|discriminate|reflexivity].
  - destruct k as [|k]; [|apply IH].
    fold (replace old (String d EmptyString) (String c s)).
    destruct (contains old (replace old (String d EmptyString) (String c s))) eqn:E;
      [|reflexivity].
    exfalso.
    rewrite replace_cons in E.
    destruct (startswith old (String c s)) eqn:Hs.
    + simpl in E. rewrite <- replace_from_drop in E. rewrite IH in E.
      rewrite orb_false_r in E.
      destruct old as [|a old]; [discriminate|].
      apply startswith_cons in E as [-> _]. simpl in Hold.
      destruct (ascii_dec d d); [discriminate|contradiction].
    + rewrite contains_cons in E. unfold replace in E at 2. rewrite IH in E.
      rewrite orb_false_r in E.
      assert (startswith old (String c s) = true); [|congruence].
      apply (startswith_replace old d); [assumption|].
      rewrite replace_cons, Hs. assumption.
Qed.

End TextFacts.

(** ** The degree sign in unit texts *)

Module UnitFacts.
Import Text TextFacts.

(** No occurrence of the escaped sequence begins before another one and
    runs into it. *)
Lemma no_straddle a b :
  startswith ESCAPED_DEGREE (a +:+ ESCAPED_DEGREE +:+ b) = true ->
  a = EmptyString \/ startswith ESCAPED_DEGREE a = true.
Proof.
  intros H. destruct a as [|c a]; [left; reflexivity | right].
  unfold ESCAPED_DEGREE in *.
  simpl in H. apply startswith_cons in H as [<- H].
  apply startswith_cons; split; [reflexivity|].
  do 7 (destruct a as [|? a];
        [ exfalso; cbv in H; discriminate H
        | simpl in H; apply startswith_cons in H as [<- H];
          apply startswith_cons; split; [reflexivity|] ]).
  apply startswith_empty.
Qed.

Lemma replace_at_occurrence b :
  replace ESCAPED_DEGREE DEGREE (ESCAPED_DEGREE +:+ b)
  = DEGREE +:+ replace ESCAPED_DEGREE DEGREE b.
Proof.
  assert (E : ESCAPED_DEGREE +:+ b = String "092"%char ("xC2\xB0" +:+ b))
    by reflexivity.
  rewrite E, replace_cons, <- E, startswith_append.
  change (String.length ESCAPED_DEGREE - 1)%nat with (String.length "xC2\xB0").
  now rewrite drop_append.
Qed.

Lemma replace_occurrence a b :
  contains ESCAPED_DEGREE a = false ->
  replace ESCAPED_DEGREE DEGREE (a +:+ ESCAPED_DEGREE +:+ b)
  = a +:+ DEGREE +:+ replace ESCAPED_DEGREE DEGREE b.
Proof.
  induction a as [|c a IH]; intros H.
  - apply replace_at_occurrence.
  - apply contains_cons_false in H as [H1 H2].
    change (String c a +:+ ESCAPED_DEGREE +:+ b)
      with (String c (a +:+ ESCAPED_DEGREE +:+ b)).
    rewrite replace_cons.
    destruct (startswith ESCAPED_DEGREE (String c (a +:+ ESCAPED_DEGREE +:+ b)))
      eqn:E.
    + apply (no_straddle (String c a) b) in E as [E|E]; congruence.
    + simpl. f_equal. now apply IH.
Qed.

Lemma contains_append_occurrence a b :
  contains ESCAPED_DEGREE (a +:+ ESCAPED_DEGREE +:+ b) = true.
Proof.
  induction a as [|c a IH].
  - change (EmptyString +:+ ESCAPED_DEGREE +:+ b) with (ESCAPED_DEGREE +:+ b).
    now rewrite contains_cons_alt, startswith_append.
  - change (String c a +:+ ESCAPED_DEGREE +:+ b)
      with (String c (a +:+ ESCAPED_DEGREE +:+ b)).
    rewrite contains_cons, IH. apply orb_true_r.
Qed.

(** The test that guards the replacement changes nothing. *)
Lemma normalize_unit_replace u :
  normalize_unit u = replace ESCAPED_DEGREE DEGREE u.
Proof.
  unfold normalize_unit.
  destruct (contains ESCAPED_DEGREE u) eqn:E; [reflexivity|].
  symmetry. now apply replace_absent.
Qed.

Lemma normalize_unit_absent u :
  contains ESCAPED_DEGREE u = false -> normalize_unit u = u.
Proof. unfold normalize_unit. now intros ->. Qed.

Lemma normalize_unit_clean u :
  contains ESCAPED_DEGREE (normalize_unit u) = false.
Proof.
  rewrite normalize_unit_replace. apply contains_replace_from; reflexivity.
Qed.

Lemma normalize_unit_occurrence a b :
  contains ESCAPED_DEGREE a = false ->
  normalize_unit (a +:+ ESCAPED_DEGREE +:+ b) = a +:+ DEGREE +:+ normalize_unit b.
Proof.
  intros H. rewrite !normalize_unit_replace. now apply replace_occurrence.
Qed.

End UnitFacts.

(** ** Identifiers that [int] refuses *)

Module PyIntFacts.
Import Text PyInt.

Lemma word_is_no_space_or_sign c :
  is_word c = true ->
  is_int_space c = false /\ is_char 43 c = false /\ is_char 45 c = false.
Proof.
  destruct c as [[] [] [] [] [] [] [] []]; intros H;
    solve [discriminate H | repeat split; reflexivity].
Qed.

Lemma all_chars_take_while p s : all_chars p (take_while p s) = true.
Proof.
  induction s as [|c s IH]; simpl; [reflexivity|].
  destruct (p c) eqn:E; simpl; [now rewrite E|reflexivity].
Qed.

Lemma not_hexadecimal_inv c :
  not_hexadecimal c = true ->
  hex_value c = None /\ is_char 95 c = false /\ is_char 120 c = false
  /\ is_char 88 c = false /\ is_char 48 c = false.
Proof.
  unfold not_hexadecimal.
  destruct c as [[] [] [] [] [] [] [] []]; intros H;
    solve [discriminate H | repeat split; reflexivity].
Qed.

Lemma skip_base_prefix_keeps s :
  all_chars is_word s = true -> has_char not_hexadecimal s = true ->
  all_chars is_word (skip_base_prefix s) = true
  /\ has_char not_hexadecimal (skip_base_prefix s) = true.
Proof.
  intros Hw Hb. unfold skip_base_prefix.
  destruct s as [|c0 [|c1 r]]; auto.
  destruct (is_char 48 c0 && (is_char 120 c1 || is_char 88 c1)) eqn:E; auto.
  simpl in Hw, Hb.
  apply andb_prop in Hw as [_ Hw]. apply andb_prop in Hw as [_ Hw].
  apply andb_prop in E as [E0 E1].
  assert (H0 : not_hexadecimal c0 = false).
  { destruct (not_hexadecimal c0) eqn:N; [|reflexivity].
    apply not_hexadecimal_inv in N as (_ & _ & _ & _ & N). congruence. }
  assert (H1 : not_hexadecimal c1 = false).
  { destruct (not_hexadecimal c1) eqn:N; [|reflexivity].
    apply not_hexadecimal_inv in N as (_ & _ & N1 & N2 & _).
    rewrite N1, N2 in E1. discriminate. }
  rewrite H0, H1 in Hb. simpl in Hb.
  destruct r as [|c2 r']; auto.
  destruct (is_char 95 c2) eqn:E2; auto.
  simpl in Hw, Hb. apply andb_prop in Hw as [_ Hw]. split; [assumption|].
  destruct (not_hexadecimal c2) eqn:N; [|assumption].
  apply not_hexadecimal_inv in N as (_ & N & _). congruence.
Qed.

(** The digit loop stops in front of the first character that is neither
    a digit nor an underscore. *)
Lemma scan_rest s prev acc digits n digits' rest :
  all_chars is_word s = true -> has_char not_hexadecimal s = true ->
  scan s prev acc digits = Some (n, digits', rest) ->
  exists c r, rest = String c r /\ is_word c = true.
Proof.
  revert prev acc digits; induction s as [|c s IH]; intros prev acc digits Hw Hb H.
  - discriminate Hb.
  - simpl in Hw, Hb, H. apply andb_prop in Hw as [Hc Hw].
    destruct (is_char 95 c) eqn:E.
    + destruct prev; [discriminate|].
      destruct (not_hexadecimal c) eqn:N.
      * apply not_hexadecimal_inv in N as (_ & N & _). congruence.
      * eapply IH; eauto.
    + destruct (hex_value c) as [d|] eqn:Hd.
      * assert (N : not_hexadecimal c = false)
          by (unfold not_hexadecimal; now rewrite Hd).
        rewrite N in Hb. eapply IH; eauto.
      * destruct prev; [discriminate|]. injection H as _ _ <-. eauto.
Qed.

(** An identifier captured by [\w+] that holds a character foreign to
    hexadecimal literals is refused. *)
Lemma int16_refuses s :
  all_chars is_word s = true -> has_char not_hexadecimal s = true ->
  int16 s = None.
Proof.
  intros Hw Hb. unfold int16.
  destruct s as [|c s]; [discriminate Hb|].
  assert (Hc : is_word c = true) by (simpl in Hw; now apply andb_prop in Hw).
  destruct (word_is_no_space_or_sign c Hc) as (Hsp & Hplus & Hminus).
  simpl drop_while. rewrite Hsp, Hplus, Hminus.
  destruct (skip_base_prefix_keeps _ Hw Hb) as [Hw' Hb'].
  destruct (starts_with_underscore _); [reflexivity|].
  destruct (scan _ false 0 0) as [[[n d] rest]|] eqn:Hs; [|reflexivity].
  destruct d; [reflexivity|].
  destruct (scan_rest _ _ _ _ _ _ _ Hw' Hb' Hs) as (c' & r & -> & Hc').
  destruct (word_is_no_space_or_sign c' Hc') as (Hsp' & _).
  simpl. now rewrite Hsp'.
Qed.

End PyIntFacts.

(** ** Keys *)

Module KeyFacts.
Import Text TextFacts.

Lemma match_startswith p key group1 :
  Re.match_ p key = Some group1 -> startswith (Re.literal p) key = true.
Proof.
  unfold Re.match_. destruct (startswith (Re.literal p) key); [reflexivity|discriminate].
Qed.

Lemma match_group p key group1 :
  Re.match_ p key = Some group1 ->
  group1 = take_while is_word (drop (String.length (Re.literal p)) key)
  /\ is_empty group1 = false.
Proof.
  unfold Re.match_. destruct (startswith (Re.literal p) key); [|discriminate].
  destruct (is_empty _) eqn:E; [discriminate|].
  intros [= <-]. auto.
Qed.

Lemma no_startswith_no_match p key :
  startswith (Re.literal p) key = false -> Re.match_ p key = None.
Proof. unfold Re.match_. now intros ->. Qed.

(** The three literals exclude one another at the start of a key. *)
Lemma literals_exclusive key :
  (startswith (Re.literal NAME_KEY) key = true ->
   startswith (Re.literal UNIT_KEY) key = false
   /\ startswith (Re.literal VALUE_KEY) key = false)
  /\ (startswith (Re.literal UNIT_KEY) key = true ->
      startswith (Re.literal VALUE_KEY) key = false).
Proof.
  split; intros H; apply startswith_inv in H; rewrite H; split || idtac;
    reflexivity.
Qed.


Lemma unit_match_excludes key group1 :
  Re.match_ UNIT_KEY key = Some group1 ->
  Re.match_ NAME_KEY key = None /\ Re.match_ VALUE_KEY key = None.
Proof.
  intros H%match_startswith. split.
  - destruct (Re.match_ NAME_KEY key) eqn:E; [|reflexivity].
    apply match_startswith, literals_exclusive in E as [E _]. congruence.
  - apply no_startswith_no_match. now apply literals_exclusive.
Qed.

Lemma value_match_excludes key group1 :
  Re.match_ VALUE_KEY key = Some group1 ->
  Re.match_ NAME_KEY key = None /\ Re.match_ UNIT_KEY key = None.
Proof.
  intros H%match_startswith. split.
  - destruct (Re.match_ NAME_KEY key) eqn:E; [|reflexivity].
    apply match_startswith, literals_exclusive in E as [_ E]. congruence.
  - destruct (Re.match_ UNIT_KEY key) eqn:E; [|reflexivity].
    apply match_startswith, literals_exclusive in E. congruence.
Qed.

Lemma classify_ignored key :
  classify key = Ignored <->
  Re.match_ NAME_KEY key = None /\ Re.match_ UNIT_KEY key = None
  /\ Re.match_ VALUE_KEY key = None.
Proof.
  unfold classify, decode.
  destruct (Re.match_ NAME_KEY key), (Re.match_ UNIT_KEY key),
    (Re.match_ VALUE_KEY key);
    repeat match goal with |- context [PyInt.int16 ?g] => destruct (PyInt.int16 g) end;
    intuition congruence.
Qed.

Lemma classify_name key pid :
  classify key = Name pid <->
  exists group1, Re.match_ NAME_KEY key = Some group1 /\ PyInt.int16 group1 = Some pid.
Proof.
  unfold classify, decode.
  destruct (Re.match_ NAME_KEY key), (Re.match_ UNIT_KEY key),
    (Re.match_ VALUE_KEY key);
    repeat match goal with |- context [PyInt.int16 ?g] => destruct (PyInt.int16 g) eqn:? end;
    split; try discriminate; try (intros [g [[= <-] ?]]; congruence);
    try (intros [g [? ?]]; discriminate); intros [= <-]; eauto.
Qed.

Lemma classify_unit key pid :
  classify key = Unit pid <->
  Re.match_ NAME_KEY key = None /\
  exists group1, Re.match_ UNIT_KEY key = Some group1 /\ PyInt.int16 group1 = Some pid.
Proof.
  unfold classify, decode.
  destruct (Re.match_ NAME_KEY key), (Re.match_ UNIT_KEY key),
    (Re.match_ VALUE_KEY key);
    repeat match goal with |- context [PyInt.int16 ?g] => destruct (PyInt.int16 g) eqn:? end;
    split; try discriminate; try (intros [? [g [[= <-] ?]]]; congruence);
    try (intros [? [g [? ?]]]; discriminate); intros [= <-]; eauto.
Qed.

Lemma classify_value key pid :
  classify key = Value pid <->
  Re.match_ NAME_KEY key = None /\ Re.match_ UNIT_KEY key = None /\
  exists group1, Re.match_ VALUE_KEY key = Some group1 /\ PyInt.int16 group1 = Some pid.
Proof.
  unfold classify, decode.
  destruct (Re.match_ NAME_KEY key), (Re.match_ UNIT_KEY key),
    (Re.match_ VALUE_KEY key);
    repeat match goal with |- context [PyInt.int16 ?g] => destruct (PyInt.int16 g) eqn:? end;
    split; try discriminate; try (intros [? [? [g [[= <-] ?]]]]; congruence);
    try (intros [? [? [g [? ?]]]]; discriminate); intros [= <-]; eauto.
Qed.

(** A key is malformed when the pattern that matches it first captured an
    identifier that [int] refuses. *)
Lemma classify_malformed key literal :
  classify key = Malformed literal <->
  PyInt.int16 literal = None /\
  (Re.match_ NAME_KEY key = Some literal
   \/ Re.match_ NAME_KEY key = None /\ Re.match_ UNIT_KEY key = Some literal
   \/ Re.match_ NAME_KEY key = None /\ Re.match_ UNIT_KEY key = None
      /\ Re.match_ VALUE_KEY key = Some literal).
Proof.
  unfold classify, decode.
  destruct (Re.match_ NAME_KEY key), (Re.match_ UNIT_KEY key),
    (Re.match_ VALUE_KEY key);
    repeat match goal with |- context [PyInt.int16 ?g] => destruct (PyInt.int16 g) eqn:? end;
    split; try discriminate;
    try (intros [= <-]; intuition congruence);
    intros [? [?|[[? ?]|[? [? ?]]]]]; congruence.
Qed.

End KeyFacts.

(** ** The loop over the keys *)

Module LoopFacts.
Import KeyFacts.

Lemma with_state_same e : with_state (_state e) e = e.
Proof. now destruct e. Qed.

Lemma getone_key data key : key ∈ MultiDict.keys data -> is_Some (MultiDict.getone data key).
Proof.
  induction data as [|[k v] data IH]; simpl.
  - intros H. inversion H.
  - intros H. destruct (String.eqb_spec key k) as [->|Hne]; [eauto|].
    apply IH. inversion H; subst; [contradiction|assumption].
Qed.

(** *** One key *)

Lemma step_name data key pid v names units w :
  classify key = Name pid -> MultiDict.getone data key = Some v ->
  classify_key data key (names, units) w
  = (Returned (PyDict.set pid v names, units), w).
Proof.
  intros (g & Hm & Hd)%classify_name Hv.
  unfold classify_key, convert_pid, getitem, bind. now rewrite Hm, Hd, Hv.
Qed.

Lemma step_unit data key pid v names units w :
  classify key = Unit pid -> MultiDict.getone data key = Some v ->
  classify_key data key (names, units) w
  = (Returned (names, <[pid := normalize_unit v]> units), w).
Proof.
  intros (Hn & g & Hm & Hd)%classify_unit Hv.
  unfold classify_key, convert_pid, getitem, bind. now rewrite Hn, Hm, Hd, Hv.
Qed.

Lemma step_value_known data key pid e v names units w :
  classify key = Value pid -> sensors w !! pid = Some e ->
  MultiDict.getone data key = Some v ->
  classify_key data key (names, units) w
  = (Returned (names, units),
     {| sensors := alter (with_state (Some v)) pid (sensors w);
        calls := calls w ++ [async_write_ha_state pid (Some v)] |}).
Proof.
  intros (Hn & Hu & g & Hm & Hd)%classify_value He Hv.
  unfold classify_key, convert_pid, getitem, contains_pid, bind.
  rewrite Hn, Hu, Hm, Hd, Hv. cbv beta iota zeta. unfold ret at 1. cbv beta iota.
  rewrite He, bool_decide_eq_true_2 by eauto. reflexivity.
Qed.

Lemma step_value_unknown data key pid names units w :
  classify key = Value pid -> sensors w !! pid = None ->
  classify_key data key (names, units) w = (Returned (names, units), w).
Proof.
  intros (Hn & Hu & g & Hm & Hd)%classify_value He.
  unfold classify_key, convert_pid, getitem, contains_pid, bind.
  rewrite Hn, Hu, Hm, Hd. cbv beta iota zeta. unfold ret at 1. cbv beta iota.
  rewrite He, bool_decide_eq_false_2 by (intros [? ?]; discriminate). reflexivity.
Qed.

Lemma step_ignored data key pending w :
  classify key = Ignored ->
  classify_key data key pending w = (Returned pending, w).
Proof.
  intros (Hn & Hu & Hv)%classify_ignored. destruct pending as [names units].
  unfold classify_key. now rewrite Hn, Hu, Hv.
Qed.

Lemma step_malformed data key literal pending w :
  classify key = Malformed literal ->
  classify_key data key pending w = (Raised (ValueError literal), w).
Proof.
  intros (Hd & H)%classify_malformed. destruct pending as [names units].
  unfold classify_key, convert_pid, bind.
  destruct H as [Hn|[[Hn Hu]|(Hn & Hu & Hv)]].
  - now rewrite Hn, Hd.
  - now rewrite Hn, Hu, Hd.
  - now rewrite Hn, Hu, Hv, Hd.
Qed.

Lemma step_missing data key pid names units w :
  classify key = Name pid \/ classify key = Unit pid
  \/ (classify key = Value pid /\ is_Some (sensors w !! pid)) ->
  MultiDict.getone data key = None ->
  classify_key data key (names, units) w = (Raised (KeyError key), w).
Proof.
  intros [H|[H|[H He]]] Hv.
  - apply classify_name in H as (g & Hm & Hd).
    unfold classify_key, convert_pid, getitem, bind. now rewrite Hm, Hd, Hv.
  - apply classify_unit in H as (Hn & g & Hm & Hd).
    unfold classify_key, convert_pid, getitem, bind. now rewrite Hn, Hm, Hd, Hv.
  - apply classify_value in H as (Hn & Hu & g & Hm & Hd).
    unfold classify_key, convert_pid, getitem, contains_pid, bind.
    rewrite Hn, Hu, Hm, Hd, Hv. cbv beta iota zeta. unfold ret at 1. cbv beta iota.
    rewrite bool_decide_eq_true_2 by assumption. reflexivity.
Qed.

(** What one key may do to the world: nothing, or the update of a known
    entity by a value key. *)
Lemma step_world data key pending w r w' :
  classify_key data key pending w = (r, w') ->
  w' = w
  \/ exists pid e v,
       classify key = Value pid /\ sensors w !! pid = Some e
       /\ MultiDict.getone data key = Some v
       /\ r = Returned pending
       /\ w' = {| sensors := alter (with_state (Some v)) pid (sensors w);
                  calls := calls w ++ [async_write_ha_state pid (Some v)] |}.
Proof.
  destruct pending as [names units].
  destruct (classify key) as [pid|pid|pid| |lit] eqn:Hc;
    destruct (MultiDict.getone data key) as [v|] eqn:Hv.
  - rewrite (step_name _ _ _ _ _ _ _ Hc Hv). intros [= <- <-]. now left.
  - rewrite step_missing with (pid := pid) by auto. intros [= <- <-]. now left.
  - rewrite (step_unit _ _ _ _ _ _ _ Hc Hv). intros [= <- <-]. now left.
  - rewrite step_missing with (pid := pid) by auto. intros [= <- <-]. now left.
  - destruct (sensors w !! pid) as [e|] eqn:He.
    + rewrite (step_value_known _ _ _ _ _ _ _ _ Hc He Hv). intros [= <- <-].
      right. exists pid, e, v. auto.
    + rewrite (step_value_unknown _ _ _ _ _ _ Hc He). intros [= <- <-]. now left.
  - destruct (sensors w !! pid) as [e|] eqn:He.
    + rewrite (step_missing data key pid names units w)
        by first [assumption | right; right; split; [assumption | rewrite He; eauto]].
      intros [= <- <-]. now left.
    + rewrite (step_value_unknown _ _ _ _ _ _ Hc He). intros [= <- <-]. now left.
  - rewrite (step_ignored _ _ _ _ Hc). intros [= <- <-]. now left.
  - rewrite (step_ignored _ _ _ _ Hc). intros [= <- <-]. now left.
  - rewrite (step_malformed _ _ _ _ _ Hc). intros [= <- <-]. now left.
  - rewrite (step_malformed _ _ _ _ _ Hc). intros [= <- <-]. now left.
Qed.

(** *** All keys *)

Lemma for_key_in_cons data key rest pending w :
  for_key_in data (key :: rest) pending w =
  match classify_key data key pending w with
  | (Returned pending', w1) => for_key_in data rest pending' w1
  | (Raised e, w1) => (Raised e, w1)
  end.
Proof. reflexivity. Qed.

Lemma for_key_in_app data keys1 keys2 pending w :
  for_key_in data (keys1 ++ keys2) pending w =
  match for_key_in data keys1 pending w with
  | (Returned pending', w1) => for_key_in data keys2 pending' w1
  | (Raised e, w1) => (Raised e, w1)
  end.
Proof.
  revert pending w; induction keys1 as [|key keys1 IH]; intros pending w.
  - reflexivity.
  - simpl app. rewrite !for_key_in_cons.
    destruct (classify_key data key pending w) as [[p|e] w1]; [apply IH|reflexivity].
Qed.

(** The table after the loop: no slot appears or disappears, and a slot
    keeps its entity, whose value alone may have been overwritten by a value
    key of the request. *)
Lemma for_key_in_lookup data keys pending w r w' pid :
  for_key_in data keys pending w = (r, w') ->
  match sensors w !! pid with
  | None => sensors w' !! pid = None
  | Some e =>
      exists state,
        sensors w' !! pid = Some (with_state state e)
        /\ (state = _state e
            \/ exists key v,
                 key ∈ keys /\ classify key = Value pid
                 /\ MultiDict.getone data key = Some v /\ state = Some v)
  end.
Proof.
  revert pending w; induction keys as [|key keys IH]; intros pending w H.
  - injection H as _ <-. destruct (sensors w !! pid) as [e|]; [|reflexivity].
    exists (_state e). rewrite with_state_same. auto.
  - rewrite for_key_in_cons in H.
    destruct (classify_key data key pending w) as [[p|ex] w1] eqn:Hs.
    + apply step_world in Hs as [->|(pid0 & e0 & v0 & Hc & He & Hv & _ & ->)].
      * specialize (IH _ _ H). destruct (sensors w !! pid) as [e|]; [|exact IH].
        destruct IH as (st & Hl & Hst). exists st. split; [exact Hl|].
        destruct Hst as [Hst|(k & v & Hin & ?)]; [now left|].
        right. exists k, v. rewrite elem_of_cons. tauto.
      * specialize (IH _ _ H). simpl in IH.
        destruct (decide (pid0 = pid)) as [->|Hne].
        -- rewrite lookup_alter_eq, He in IH. simpl in IH. rewrite He.
           destruct IH as (st & Hl & Hst). exists st. split; [exact Hl|]. right.
           destruct Hst as [Hst|(k & v & Hin & ?)].
           ++ exists key, v0. rewrite elem_of_cons. auto.
           ++ exists k, v. rewrite elem_of_cons. tauto.
        -- rewrite lookup_alter_ne in IH by assumption.
           destruct (sensors w !! pid) as [e|]; [|exact IH].
           destruct IH as (st & Hl & Hst). exists st. split; [exact Hl|].
           destruct Hst as [Hst|(k & v & Hin & ?)]; [now left|].
           right. exists k, v. rewrite elem_of_cons. tauto.
    + injection H as _ <-.
      apply step_world in Hs as [->|(? & ? & ? & _ & _ & _ & [=] & _)].
      destruct (sensors w !! pid) as [e|]; [|reflexivity].
      exists (_state e). rewrite with_state_same. auto.
Qed.

(** The calls of the loop are state writes only. *)
Lemma for_key_in_calls data keys pending w r w' :
  for_key_in data keys pending w = (r, w') ->
  exists writes,
    calls w' = calls w ++ writes
    /\ Forall (fun c => exists pid v,
                 c = async_write_ha_state pid (Some v)
                 /\ is_Some (sensors w !! pid)) writes.
Proof.
  revert pending w; induction keys as [|key keys IH]; intros pending w H.
  - injection H as _ <-. exists []. rewrite app_nil_r. auto.
  - rewrite for_key_in_cons in H.
    destruct (classify_key data key pending w) as [[p|ex] w1] eqn:Hs.
    + apply step_world in Hs as [->|(pid0 & e0 & v0 & Hc & He & Hv & _ & ->)].
      * eauto.
      * destruct (IH _ _ H) as (l & Hl & Hall). simpl in Hl.
        exists (async_write_ha_state pid0 (Some v0) :: l). split.
        -- rewrite Hl, <- app_assoc. reflexivity.
        -- constructor; [exists pid0, v0; rewrite He; eauto|].
           eapply Forall_impl; [exact Hall|]. simpl.
           intros c (pid & v & -> & Hs). exists pid, v. split; [reflexivity|].
           destruct (decide (pid0 = pid)) as [->|Hne].
           ++ rewrite He; eauto.
           ++ now rewrite lookup_alter_ne in Hs.
    + injection H as _ <-.
      apply step_world in Hs as [->|(? & ? & ? & _ & _ & _ & [=] & _)].
      exists []. rewrite app_nil_r. auto.
Qed.

(** *** The pending names and units *)

Lemma get_set_eq {V} k (v : V) d : PyDict.get (PyDict.set k v d) k = Some v.
Proof.
  induction d as [|[k' v'] d IH]; simpl.
  - now rewrite Z.eqb_refl.
  - destruct (Z.eqb_spec k k') as [->|Hne]; simpl.
    + now rewrite Z.eqb_refl.
    + destruct (Z.eqb_spec k k'); [contradiction|exact IH].
Qed.

Lemma get_set_ne {V} k k' (v : V) d :
  k <> k' -> PyDict.get (PyDict.set k v d) k' = PyDict.get d k'.
Proof.
  intros Hne. induction d as [|[k0 v0] d IH]; simpl.
  - destruct (Z.eqb_spec k' k); [congruence|reflexivity].
  - destruct (Z.eqb_spec k k0) as [->|Hne0]; simpl.
    + destruct (Z.eqb_spec k' k0); [congruence|reflexivity].
    + destruct (Z.eqb_spec k' k0); [reflexivity|exact IH].
Qed.

Lemma get_None {V} (d : PyDict.t V) k :
  PyDict.get d k = None <-> k ∉ map fst d.
Proof.
  induction d as [|[k0 v0] d IH]; simpl.
  - split; [intros _ H; inversion H|reflexivity].
  - rewrite not_elem_of_cons. destruct (Z.eqb_spec k k0); split.
    + discriminate.
    + intros [? _]; contradiction.
    + intros H. split; [assumption|now apply IH].
    + intros [_ H]. now apply IH.
Qed.

Lemma elem_of_keys_set {V} k (v : V) d k' :
  k' ∈ map fst (PyDict.set k v d) <-> k' = k \/ k' ∈ map fst d.
Proof.
  induction d as [|[k0 v0] d IH]; simpl.
  - rewrite list_elem_of_singleton, elem_of_nil. tauto.
  - destruct (Z.eqb_spec k k0) as [->|Hne]; simpl; rewrite !elem_of_cons.
    + tauto.
    + rewrite IH. tauto.
Qed.

Lemma NoDup_keys_set {V} k (v : V) d :
  NoDup (map fst d) -> NoDup (map fst (PyDict.set k v d)).
Proof.
  induction d as [|[k0 v0] d IH]; simpl; intros H.
  - apply NoDup_singleton.
  - apply NoDup_cons in H as [Hnotin Hd].
    destruct (Z.eqb_spec k k0) as [->|Hne]; simpl; apply NoDup_cons.
    + auto.
    + split; [|auto]. rewrite elem_of_keys_set. intros [?|?]; congruence.
Qed.

(** What a key that was read without an exception did to the pending
    mappings. *)
Lemma step_pending data key names units w names' units' w1 :
  classify_key data key (names, units) w = (Returned (names', units'), w1) ->
  (exists pid v, classify key = Name pid /\ MultiDict.getone data key = Some v
                 /\ names' = PyDict.set pid v names /\ units' = units)
  \/ (exists pid v, classify key = Unit pid /\ MultiDict.getone data key = Some v
                    /\ names' = names /\ units' = <[pid := normalize_unit v]> units)
  \/ ((classify key = Ignored \/ exists pid, classify key = Value pid)
      /\ names' = names /\ units' = units).
Proof.
  destruct (classify key) as [pid|pid|pid| |lit] eqn:Hc.
  - destruct (MultiDict.getone data key) as [v|] eqn:Hv.
    + rewrite (step_name _ _ _ _ _ _ _ Hc Hv). intros [= <- <- <-].
      left. exists pid, v. auto.
    + rewrite (step_missing data key pid) by auto. discriminate.
  - destruct (MultiDict.getone data key) as [v|] eqn:Hv.
    + rewrite (step_unit _ _ _ _ _ _ _ Hc Hv). intros [= <- <- <-].
      right; left. exists pid, v. auto.
    + rewrite (step_missing data key pid) by auto. discriminate.
  - destruct (sensors w !! pid) as [e|] eqn:He.
    + destruct (MultiDict.getone data key) as [v|] eqn:Hv.
      * rewrite (step_value_known _ _ _ _ _ _ _ _ Hc He Hv). intros [= <- <- _].
        right; right. eauto.
      * rewrite (step_missing data key pid)
          by first [assumption | right; right; split; [assumption | rewrite He; eauto]].
        discriminate.
    + rewrite (step_value_unknown _ _ _ _ _ _ Hc He). intros [= <- <- _].
      right; right. eauto.
  - rewrite (step_ignored _ _ _ _ Hc). intros [= <- <- <-]. auto.
  - rewrite (step_malformed _ _ _ _ _ Hc). discriminate.
Qed.

Lemma for_key_in_pending_other data keys names units w names' units' w' pid :
  for_key_in data keys (names, units) w = (Returned (names', units'), w') ->
  (Forall (fun k => classify k <> Name pid) keys ->
   PyDict.get names' pid = PyDict.get names pid)
  /\ (Forall (fun k => classify k <> Unit pid) keys ->
      units' !! pid = units !! pid).
Proof.
  revert names units w; induction keys as [|key keys IH]; intros names units w H.
  - injection H as <- <- _. auto.
  - rewrite for_key_in_cons in H.
    destruct (classify_key data key (names, units) w) as [[[n1 u1]|ex] w1] eqn:Hs;
      [|discriminate].
    destruct (IH _ _ _ H) as [IHn IHu].
    apply step_pending in Hs
      as [(p & v & Hc & _ & -> & ->)|[(p & v & Hc & _ & -> & ->)|(_ & -> & ->)]];
      split; intros Hall; apply Forall_cons in Hall as [Hk Hall]; auto.
    + rewrite IHn by assumption. apply get_set_ne. congruence.
    + rewrite IHu by assumption. apply lookup_insert_ne. congruence.
Qed.

Lemma for_key_in_NoDup data keys names units w names' units' w' :
  for_key_in data keys (names, units) w = (Returned (names', units'), w') ->
  NoDup (map fst names) -> NoDup (map fst names').
Proof.
  revert names units w; induction keys as [|key keys IH]; intros names units w H.
  - injection H as <- <- _. auto.
  - rewrite for_key_in_cons in H.
    destruct (classify_key data key (names, units) w) as [[[n1 u1]|ex] w1] eqn:Hs;
      [|discriminate].
    intros Hnd. apply (IH _ _ _ H).
    apply step_pending in Hs
      as [(p & v & Hc & _ & -> & ->)|[(p & v & Hc & _ & -> & ->)|(_ & -> & ->)]];
      auto using NoDup_keys_set.
Qed.

(** The last key of a class decides. *)
Lemma for_key_in_name_last data keys1 key keys2 names units w names' units' w' pid v :
  for_key_in data (keys1 ++ key :: keys2) (names, units) w
  = (Returned (names', units'), w') ->
  classify key = Name pid ->
  Forall (fun k => classify k <> Name pid) keys2 ->
  MultiDict.getone data key = Some v ->
  PyDict.get names' pid = Some v.
Proof.
  intros H Hc Hall Hv. rewrite for_key_in_app in H.
  destruct (for_key_in data keys1 (names, units) w) as [[[n1 u1]|ex] w1];
    [|discriminate].
  rewrite for_key_in_cons, (step_name _ _ _ _ _ _ _ Hc Hv) in H.
  apply for_key_in_pending_other with (pid := pid) in H as [H _].
  rewrite H by assumption. apply get_set_eq.
Qed.

Lemma for_key_in_unit_last data keys1 key keys2 names units w names' units' w' pid v :
  for_key_in data (keys1 ++ key :: keys2) (names, units) w
  = (Returned (names', units'), w') ->
  classify key = Unit pid ->
  Forall (fun k => classify k <> Unit pid) keys2 ->
  MultiDict.getone data key = Some v ->
  units' !! pid = Some (normalize_unit v).
Proof.
  intros H Hc Hall Hv. rewrite for_key_in_app in H.
  destruct (for_key_in data keys1 (names, units) w) as [[[n1 u1]|ex] w1];
    [|discriminate].
  rewrite for_key_in_cons, (step_unit _ _ _ _ _ _ _ Hc Hv) in H.
  apply for_key_in_pending_other with (pid := pid) in H as [_ H].
  rewrite H by assumption. apply lookup_insert_eq.
Qed.

Lemma for_key_in_value_other data keys pending w r w' pid :
  for_key_in data keys pending w = (r, w') ->
  Forall (fun k => classify k <> Value pid) keys ->
  sensors w' !! pid = sensors w !! pid.
Proof.
  intros H Hall. apply for_key_in_lookup with (pid := pid) in H.
  destruct (sensors w !! pid) as [e|]; [|exact H].
  destruct H as (st & -> & [->|(k & v & Hin & Hc & _)]).
  - now rewrite with_state_same.
  - rewrite Forall_forall in Hall. exfalso. now apply (Hall k).
Qed.

Lemma for_key_in_value_last data keys1 key keys2 pending w r w' pid e v :
  for_key_in data (keys1 ++ key :: keys2) pending w = (Returned r, w') ->
  classify key = Value pid ->
  Forall (fun k => classify k <> Value pid) keys2 ->
  MultiDict.getone data key = Some v ->
  sensors w !! pid = Some e ->
  sensors w' !! pid = Some (with_state (Some v) e).
Proof.
  intros H Hc Hall Hv He. rewrite for_key_in_app in H.
  destruct (for_key_in data keys1 pending w) as [[[n1 u1]|ex] w1] eqn:H1;
    [|discriminate].
  apply for_key_in_lookup with (pid := pid) in H1. rewrite He in H1.
  destruct H1 as (st & He1 & _).
  rewrite for_key_in_cons, (step_value_known _ _ _ _ _ _ _ _ Hc He1 Hv) in H.
  apply for_key_in_value_other with (pid := pid) in H; [|assumption].
  rewrite H. simpl. rewrite lookup_alter_eq, He1. reflexivity.
Qed.

(** A list either has no element with a given property, or a last one. *)
Lemma last_such {A} (P : A -> Prop) `{forall x, Decision (P x)} (l : list A) :
  Forall (fun x => ~ P x) l
  \/ exists l1 x l2, l = l1 ++ x :: l2 /\ P x /\ Forall (fun x => ~ P x) l2.
Proof.
  induction l as [|a l IH]; [left; constructor|].
  destruct IH as [IH|(l1 & x & l2 & -> & Hx & Hl2)].
  - destruct (decide (P a)) as [Ha|Ha].
    + right. exists [], a, l. auto.
    + left. now constructor.
  - right. exists (a :: l1), x, l2. auto.
Qed.

(** A pending name was put there by a name key of the request: the last
    one for its id. *)
Lemma for_key_in_name_inv data keys units w names' units' w' pid name :
  for_key_in data keys ([], units) w = (Returned (names', units'), w') ->
  PyDict.get names' pid = Some name ->
  exists keys1 key keys2,
    keys = keys1 ++ key :: keys2 /\ classify key = Name pid
    /\ Forall (fun k => classify k <> Name pid) keys2
    /\ MultiDict.getone data key = Some name.
Proof.
  intros H Hget.
  destruct (last_such (fun k => classify k = Name pid) keys)
    as [Hall|(keys1 & key & keys2 & -> & Hc & Hall)].
  - apply for_key_in_pending_other with (pid := pid) in H as [H _].
    rewrite H in Hget by assumption. discriminate.
  - exists keys1, key, keys2. repeat split; try assumption.
    destruct (MultiDict.getone data key) as [v|] eqn:Hv.
    + rewrite (for_key_in_name_last _ _ _ _ _ _ _ _ _ _ _ _ H Hc Hall Hv) in Hget.
      congruence.
    + rewrite for_key_in_app in H.
      destruct (for_key_in data keys1 ([], units) w) as [[[n1 u1]|ex] w1];
        [|discriminate].
      rewrite for_key_in_cons, (step_missing data key pid) in H by auto.
      discriminate.
Qed.

(** Likewise for a pending unit. *)
Lemma for_key_in_unit_inv data keys names w names' units' w' pid unit :
  for_key_in data keys (names, ∅) w = (Returned (names', units'), w') ->
  units' !! pid = Some unit ->
  exists keys1 key keys2 v,
    keys = keys1 ++ key :: keys2 /\ classify key = Unit pid
    /\ Forall (fun k => classify k <> Unit pid) keys2
    /\ MultiDict.getone data key = Some v /\ unit = normalize_unit v.
Proof.
  intros H Hget.
  destruct (last_such (fun k => classify k = Unit pid) keys)
    as [Hall|(keys1 & key & keys2 & -> & Hc & Hall)].
  - apply for_key_in_pending_other with (pid := pid) in H as [_ H].
    rewrite H in Hget by assumption. rewrite lookup_empty in Hget. discriminate.
  - exists keys1, key, keys2.
    destruct (MultiDict.getone data key) as [v|] eqn:Hv.
    + exists v. repeat split; try assumption.
      rewrite (for_key_in_unit_last _ _ _ _ _ _ _ _ _ _ _ _ H Hc Hall Hv) in Hget.
      congruence.
    + rewrite for_key_in_app in H.
      destruct (for_key_in data keys1 (names, ∅) w) as [[[n1 u1]|ex] w1];
        [|discriminate].
      rewrite for_key_in_cons, (step_missing data key pid) in H by auto.
      discriminate.
Qed.

End LoopFacts.

(** ** The loop over the pending names *)

Module CreationFacts.
Import LoopFacts.

Lemma create_entity_known units unique_id pid name w :
  is_Some (sensors w !! pid) ->
  create_entity units unique_id (pid, name) w = (Returned tt, w).
Proof.
  intros H. unfold create_entity, contains_pid, bind.
  now rewrite bool_decide_eq_true_2.
Qed.

Lemma create_entity_new units unique_id pid name w :
  sensors w !! pid = None ->
  create_entity units unique_id (pid, name) w
  = (Returned tt,
     {| sensors := <[pid := TorqueSensor__init__ name (units !! pid) unique_id]>
                     (sensors w);
        calls := calls w ++ [async_add_job_add_entities [pid]] |}).
Proof.
  intros H. unfold create_entity, contains_pid, bind.
  rewrite bool_decide_eq_false_2; [reflexivity|].
  rewrite H. intros [? ?]; discriminate.
Qed.

Lemma for_pid_name_in_cons item rest units unique_id w :
  for_pid_name_in (item :: rest) units unique_id w
  = for_pid_name_in rest units unique_id (snd (create_entity units unique_id item w)).
Proof.
  destruct item as [pid name].
  change (for_pid_name_in ((pid, name) :: rest) units unique_id w)
    with (bind (create_entity units unique_id (pid, name))
               (fun _ => for_pid_name_in rest units unique_id) w).
  unfold bind at 1.
  destruct (sensors w !! pid) as [e|] eqn:He.
  - now rewrite create_entity_known by (rewrite He; eauto).
  - now rewrite create_entity_new.
Qed.

Lemma filter_ext_in {A} (P Q : A -> Prop) `{forall x, Decision (P x)}
    `{forall x, Decision (Q x)} (l : list A) :
  (forall x, x ∈ l -> P x <-> Q x) -> filter P l = filter Q l.
Proof.
  induction l as [|a l IH]; intros Hext; [reflexivity|].
  rewrite !filter_cons.
  rewrite IH by (intros x Hx; apply Hext; now apply elem_of_cons; right).
  assert (Ha : P a <-> Q a) by (apply Hext; now apply elem_of_cons; left).
  destruct (decide (P a)), (decide (Q a)); tauto.
Qed.

(** The loop never raises. It creates one entity for each pending id that
    has no slot yet, in the order of the pending names, and leaves every
    other slot as it is. *)
Lemma for_pid_name_in_spec items units unique_id w :
  NoDup (map fst items) ->
  exists w',
    for_pid_name_in items units unique_id w = (Returned tt, w')
    /\ calls w' = calls w ++
         map (fun pid => async_add_job_add_entities [pid])
             (filter (fun pid => sensors w !! pid = None) (map fst items))
    /\ forall pid,
         sensors w' !! pid =
         match sensors w !! pid with
         | Some e => Some e
         | None =>
             (fun name => TorqueSensor__init__ name (units !! pid) unique_id)
               <$> PyDict.get items pid
         end.
Proof.
  revert w; induction items as [|[pid0 name0] items IH]; intros w Hnd.
  - exists w. split; [reflexivity|]. split; [now rewrite app_nil_r|].
    intros pid. now destruct (sensors w !! pid).
  - simpl in Hnd. apply NoDup_cons in Hnd as [Hnotin Hnd].
    rewrite for_pid_name_in_cons.
    destruct (sensors w !! pid0) as [e0|] eqn:He0.
    + rewrite create_entity_known by (rewrite He0; eauto). simpl snd.
      destruct (IH w Hnd) as (w' & Hrun & Hcalls & Hlook).
      exists w'. split; [exact Hrun|]. split.
      * simpl map. rewrite filter_cons_False by (rewrite He0; discriminate).
        exact Hcalls.
      * intros pid. rewrite Hlook.
        destruct (sensors w !! pid) as [e|] eqn:He; [reflexivity|].
        simpl. destruct (Z.eqb_spec pid pid0); [congruence|reflexivity].
    + rewrite create_entity_new by assumption. simpl snd.
      match goal with |- context [for_pid_name_in _ _ _ ?w1] =>
        destruct (IH w1 Hnd) as (w' & Hrun & Hcalls & Hlook) end.
      exists w'. split; [exact Hrun|]. split.
      * rewrite Hcalls. simpl. rewrite <- app_assoc. f_equal.
        rewrite filter_cons_True by assumption. simpl. f_equal. f_equal.
        apply filter_ext_in. intros x Hx.
        rewrite lookup_insert_ne; [reflexivity|]. intros ->. contradiction.
      * intros pid. rewrite Hlook. simpl.
        destruct (Z.eqb_spec pid pid0) as [->|Hne].
        -- now rewrite lookup_insert_eq, He0.
        -- now rewrite lookup_insert_ne by congruence.
Qed.

End CreationFacts.

(** ** The handler *)

Module HandlerFacts.
Import LoopFacts CreationFacts.

Lemma for_pid_name_in_total items units unique_id w :
  exists w', for_pid_name_in items units unique_id w = (Returned tt, w').
Proof.
  revert w; induction items as [|item items IH]; intros w.
  - now exists w.
  - rewrite for_pid_name_in_cons. apply IH.
Qed.

Lemma handler_empty request email unique_id w :
  query request = [] ->
  await (_addEntitiesFromRequest request email unique_id) w
  = (Returned (Some NO_QUERY), w).
Proof. intros H. simpl. unfold handler_body. now rewrite H. Qed.

Lemma handler_unfiltered request unique_id w :
  query request <> [] ->
  await (_addEntitiesFromRequest request None unique_id) w
  = demultiplex (query request) unique_id w.
Proof.
  intros H. simpl. unfold handler_body.
  destruct (query request); [contradiction|reflexivity].
Qed.

Lemma handler_no_sender request expected unique_id w :
  query request <> [] ->
  MultiDict.getone (query request) SENSOR_EMAIL_FIELD = None ->
  await (_addEntitiesFromRequest request (Some expected) unique_id) w
  = (Raised (KeyError SENSOR_EMAIL_FIELD), w).
Proof.
  intros H Hs. simpl. unfold handler_body.
  destruct (query request) eqn:E; [contradiction|].
  unfold bind, getitem. now rewrite Hs.
Qed.

Lemma handler_sender request expected sender unique_id w :
  query request <> [] ->
  MultiDict.getone (query request) SENSOR_EMAIL_FIELD = Some sender ->
  await (_addEntitiesFromRequest request (Some expected) unique_id) w
  = if String.eqb expected sender
    then demultiplex (query request) unique_id w
    else (Returned None, w).
Proof.
  intros H Hs. simpl. unfold handler_body.
  destruct (query request) eqn:E; [contradiction|].
  unfold bind at 1. unfold bind at 1. unfold getitem. rewrite Hs.
  unfold ret at 1. cbv beta iota.
  destruct (String.eqb expected sender); reflexivity.
Qed.

Lemma handler_accepted request email unique_id w :
  query request <> [] ->
  sender_accepted email (query request) ->
  await (_addEntitiesFromRequest request email unique_id) w
  = demultiplex (query request) unique_id w.
Proof.
  intros H Ha. destruct email as [expected|].
  - simpl in Ha. rewrite (handler_sender _ _ _ _ _ H Ha).
    now rewrite String.eqb_refl.
  - now apply handler_unfiltered.
Qed.

Lemma demultiplex_cases data unique_id w :
  (exists ex w1,
     for_key_in data (MultiDict.keys data) ([], ∅) w = (Raised ex, w1)
     /\ demultiplex data unique_id w = (Raised ex, w1))
  \/ (exists names units w1 w',
        for_key_in data (MultiDict.keys data) ([], ∅) w
        = (Returned (names, units), w1)
        /\ for_pid_name_in (PyDict.items names) units unique_id w1
           = (Returned tt, w')
        /\ demultiplex data unique_id w = (Returned (Some OK), w')).
Proof.
  unfold demultiplex, bind.
  destruct (for_key_in data (MultiDict.keys data) ([], ∅) w)
    as [[[names units]|ex] w1] eqn:E.
  - right. destruct (for_pid_name_in_total (PyDict.items names) units unique_id w1)
      as [w' Hw']. exists names, units, w1, w'. now rewrite Hw'.
  - left. eauto.
Qed.

(** Every way the handler can end *)
Lemma handler_cases request email unique_id w r w' :
  await (_addEntitiesFromRequest request email unique_id) w = (r, w') ->
  (query request = [] /\ r = Returned (Some NO_QUERY) /\ w' = w)
  \/ (query request <> [] /\ w' = w /\
      exists expected,
        email = Some expected
        /\ ((MultiDict.getone (query request) SENSOR_EMAIL_FIELD = None
             /\ r = Raised (KeyError SENSOR_EMAIL_FIELD))
            \/ (exists sender,
                  MultiDict.getone (query request) SENSOR_EMAIL_FIELD = Some sender
                  /\ sender <> expected /\ r = Returned None)))
  \/ (query request <> [] /\ sender_accepted email (query request)
      /\ demultiplex (query request) unique_id w = (r, w')).
Proof.
  intros H.
  destruct (query request) as [|kv rest] eqn:Hq.
  - rewrite handler_empty in H by assumption. injection H as <- <-. now left.
  - assert (Hne : query request <> []) by (rewrite Hq; discriminate).
    rewrite <- Hq in *. clear Hq. right.
    destruct email as [expected|].
    + destruct (MultiDict.getone (query request) SENSOR_EMAIL_FIELD)
        as [sender|] eqn:Hs.
      * rewrite (handler_sender _ _ _ _ _ Hne Hs) in H.
        destruct (String.eqb expected sender) eqn:Hx.
        -- apply String.eqb_eq in Hx. subst sender. right. auto.
        -- apply String.eqb_neq in Hx.
           injection H as <- <-. left. repeat split; try assumption.
           exists expected. split; [reflexivity|]. right. exists sender. auto.
      * rewrite (handler_no_sender _ _ _ _ Hne Hs) in H. injection H as <- <-.
        left. repeat split; try assumption. exists expected. auto.
    + rewrite handler_unfiltered in H by assumption. right.
      repeat split; assumption.
Qed.

(** The loop over the keys ends without an exception when no key of the
    request is malformed. *)
Lemma for_key_in_total data keys pending w :
  (forall key, key ∈ keys -> is_Some (MultiDict.getone data key)) ->
  Forall (fun key => is_malformed key = false) keys ->
  exists pending' w', for_key_in data keys pending w = (Returned pending', w').
Proof.
  revert pending w; induction keys as [|key keys IH]; intros [names units] w Hget Hall.
  - now exists (names, units), w.
  - apply Forall_cons in Hall as [Hk Hall].
    assert (Hget' : forall k, k ∈ keys -> is_Some (MultiDict.getone data k))
      by (intros k Hin; apply Hget; now apply elem_of_cons; right).
    destruct (Hget key) as [v Hv]; [now apply elem_of_cons; left|].
    rewrite for_key_in_cons. unfold is_malformed in Hk.
    destruct (classify key) as [pid|pid|pid| |lit] eqn:Hc; [| | | |discriminate].
    + rewrite (step_name _ _ _ _ _ _ _ Hc Hv). now apply IH.
    + rewrite (step_unit _ _ _ _ _ _ _ Hc Hv). now apply IH.
    + destruct (sensors w !! pid) as [e|] eqn:He.
      * rewrite (step_value_known _ _ _ _ _ _ _ _ Hc He Hv). now apply IH.
      * rewrite (step_value_unknown _ _ _ _ _ _ Hc He). now apply IH.
    + rewrite (step_ignored _ _ _ _ Hc). now apply IH.
Qed.

(** The loop raises at the first malformed key, in the world the keys
    before it have made. *)
Lemma for_key_in_malformed data keys1 key keys2 literal pending w :
  (forall k, k ∈ keys1 -> is_Some (MultiDict.getone data k)) ->
  Forall (fun k => is_malformed k = false) keys1 ->
  classify key = Malformed literal ->
  exists pending1 w1,
    for_key_in data keys1 pending w = (Returned pending1, w1)
    /\ for_key_in data (keys1 ++ key :: keys2) pending w
       = (Raised (ValueError literal), w1).
Proof.
  intros Hget Hall Hc.
  destruct (for_key_in_total data keys1 pending w Hget Hall) as (p1 & w1 & H1).
  exists p1, w1. split; [exact H1|].
  now rewrite for_key_in_app, H1, for_key_in_cons, (step_malformed _ _ _ _ _ Hc).
Qed.

(** A list of keys either has no malformed key, or a first one. *)
Lemma first_malformed keys :
  Forall (fun k => is_malformed k = false) keys
  \/ exists keys1 key keys2 literal,
       keys = keys1 ++ key :: keys2
       /\ Forall (fun k => is_malformed k = false) keys1
       /\ classify key = Malformed literal.
Proof.
  induction keys as [|key keys IH]; [left; constructor|].
  destruct (classify key) as [pid|pid|pid| |lit] eqn:Hc;
    try (destruct IH as [IH|(k1 & k & k2 & lit & -> & Hall & Hm)];
         [left; constructor; [unfold is_malformed; now rewrite Hc|assumption]
         |right; exists (key :: k1), k, k2, lit; repeat split;
          [|assumption]; constructor;
          [unfold is_malformed; now rewrite Hc|assumption]]).
  right. exists [], key, keys, lit. repeat split; [constructor|assumption].
Qed.

End HandlerFacts.

(** ** One request *)

Module ServeFacts.
Import LoopFacts CreationFacts HandlerFacts.

Lemma getone_None data key :
  MultiDict.getone data key = None <-> key ∉ MultiDict.keys data.
Proof.
  induction data as [|[k v] data IH]; simpl.
  - split; [intros _ H; inversion H|reflexivity].
  - rewrite not_elem_of_cons. destruct (String.eqb_spec key k); split.
    + discriminate.
    + intros [? _]; contradiction.
    + intros H. split; [assumption|now apply IH].
    + intros [_ H]. now apply IH.
Qed.

Lemma for_key_in_unit_none data keys names units w names' units' w' pid :
  for_key_in data keys (names, units) w = (Returned (names', units'), w') ->
  units' !! pid = None ->
  Forall (fun k => classify k <> Unit pid) keys.
Proof.
  intros H Hnone.
  destruct (last_such (fun k => classify k = Unit pid) keys)
    as [Hall|(keys1 & key & keys2 & -> & Hc & Hall)]; [exact Hall|].
  exfalso. destruct (MultiDict.getone data key) as [v|] eqn:Hv.
  - rewrite (for_key_in_unit_last _ _ _ _ _ _ _ _ _ _ _ _ H Hc Hall Hv) in Hnone.
    discriminate.
  - rewrite for_key_in_app in H.
    destruct (for_key_in data keys1 (names, units) w) as [[[n1 u1]|ex] w1];
      [|discriminate].
    rewrite for_key_in_cons, (step_missing data key pid) in H by auto.
    discriminate.
Qed.

(** The pending unit of a request that was read to its end *)
Lemma pending_unit_of_loop request names w names' units' w' pid :
  for_key_in (query request) (MultiDict.keys (query request)) (names, ∅) w
  = (Returned (names', units'), w') ->
  pending_unit request pid (units' !! pid).
Proof.
  intros H. destruct (units' !! pid) as [u|] eqn:Hu; simpl.
  - destruct (for_key_in_unit_inv _ _ _ _ _ _ _ _ _ H Hu)
      as (k1 & k & k2 & v & ? & ? & ? & ? & ->).
    exists v. split; [|reflexivity]. now exists k1, k, k2.
  - eapply for_key_in_unit_none; eauto.
Qed.

Lemma handler_ok_inv request email unique_id w w' :
  await (_addEntitiesFromRequest request email unique_id) w
  = (Returned (Some OK), w') ->
  query request <> [] /\ sender_accepted email (query request)
  /\ exists names units w1,
       for_key_in (query request) (MultiDict.keys (query request)) ([], ∅) w
       = (Returned (names, units), w1)
       /\ NoDup (map fst names)
       /\ for_pid_name_in (PyDict.items names) units unique_id w1
          = (Returned tt, w').
Proof.
  intros H.
  apply handler_cases in H
    as [(_ & [=] & _)|[(_ & _ & ex & _ & [[_ [=]]|(? & _ & _ & [=])])|(Hq & Ha & H)]].
  split; [assumption|]. split; [assumption|].
  destruct (demultiplex_cases (query request) unique_id w)
    as [(ex & w1 & _ & E)|(names & units & w1 & w2 & H1 & H2 & E)];
    rewrite E in H; [discriminate|].
  injection H as <-. exists names, units, w1. repeat split; try assumption.
  eapply for_key_in_NoDup; [exact H1|]. constructor.
Qed.

(** The table after a request, slot by slot, however the request ended *)
Lemma handler_lookup request email unique_id w r w' pid :
  await (_addEntitiesFromRequest request email unique_id) w = (r, w') ->
  match sensors w !! pid with
  | Some e =>
      exists state,
        sensors w' !! pid = Some (with_state state e)
        /\ (state = _state e
            \/ exists key v,
                 key ∈ MultiDict.keys (query request)
                 /\ classify key = Value pid
                 /\ MultiDict.getone (query request) key = Some v
                 /\ state = Some v)
  | None =>
      sensors w' !! pid = None
      \/ (r = Returned (Some OK)
          /\ exists name unit,
               supplies Name request pid name
               /\ pending_unit request pid unit
               /\ sensors w' !! pid
                  = Some (TorqueSensor__init__ name unit unique_id))
  end.
Proof.
  intros H.
  assert (Hsame : w' = w ->
    match sensors w !! pid with
    | Some e =>
        exists state,
          sensors w' !! pid = Some (with_state state e)
          /\ (state = _state e
              \/ exists key v,
                   key ∈ MultiDict.keys (query request)
                   /\ classify key = Value pid
                   /\ MultiDict.getone (query request) key = Some v
                   /\ state = Some v)
    | None =>
        sensors w' !! pid = None
        \/ (r = Returned (Some OK)
            /\ exists name unit,
                 supplies Name request pid name
                 /\ pending_unit request pid unit
                 /\ sensors w' !! pid
                    = Some (TorqueSensor__init__ name unit unique_id))
    end).
  { intros ->. destruct (sensors w !! pid) as [e|] eqn:He; [|now left].
    exists (_state e). rewrite with_state_same. auto. }
  apply handler_cases in H as [(_ & _ & ->)|[(_ & -> & _)|(Hq & Ha & H)]];
    [now apply Hsame|now apply Hsame|].
  clear Hsame.
  destruct (demultiplex_cases (query request) unique_id w)
    as [(ex & w1 & H1 & E)|(names & units & w1 & w2 & H1 & H2 & E)];
    rewrite E in H; injection H as Hr Hw; subst r w'.
  - apply for_key_in_lookup with (pid := pid) in H1.
    destruct (sensors w !! pid); [exact H1|now left].
  - assert (Hnd : NoDup (map fst names))
      by (eapply for_key_in_NoDup; [exact H1|constructor]).
    destruct (for_pid_name_in_spec names units unique_id w1 Hnd)
      as (w3 & H3 & _ & Hlook).
    unfold PyDict.items in H2. rewrite H2 in H3. injection H3 as <-.
    pose proof (for_key_in_lookup _ _ _ _ _ _ pid H1) as Hl.
    rewrite Hlook.
    destruct (sensors w !! pid) as [e|] eqn:He.
    + destruct Hl as (st & -> & Hst). eauto.
    + rewrite Hl. destruct (PyDict.get names pid) as [name|] eqn:Hn; [|now left].
      right. split; [reflexivity|]. exists name, (units !! pid).
      split; [|split; [|reflexivity]].
      * destruct (for_key_in_name_inv _ _ _ _ _ _ _ _ _ H1 Hn)
          as (k1 & k & k2 & ? & ? & ? & ?). now exists k1, k, k2.
      * eapply pending_unit_of_loop; eauto.
Qed.

End ServeFacts.

(** ** The call log *)

Module CallFacts.
Import LoopFacts.

Lemma creations_of_app pid l1 l2 :
  creations_of pid (l1 ++ l2) = creations_of pid l1 ++ creations_of pid l2.
Proof. apply filter_app. Qed.

Lemma creations_of_no_creation pid (l : list call) :
  Forall (fun c => c <> async_add_job_add_entities [pid]) l ->
  creations_of pid l = [].
Proof.
  induction 1 as [|c l Hc _ IH]; [reflexivity|].
  unfold creations_of in *. now rewrite filter_cons_False.
Qed.

Lemma creations_of_batches_absent pid (l : list Z) :
  pid ∉ l ->
  creations_of pid (map (fun p => async_add_job_add_entities [p]) l) = [].
Proof.
  intros Hnotin. apply creations_of_no_creation.
  induction l as [|p l IH]; simpl; constructor.
  - intros [= ->]. apply Hnotin. now left.
  - apply IH. intros Hin. apply Hnotin. now right.
Qed.

Lemma creations_of_batches_present pid (l : list Z) :
  NoDup l -> pid ∈ l ->
  creations_of pid (map (fun p => async_add_job_add_entities [p]) l)
  = [async_add_job_add_entities [pid]].
Proof.
  induction l as [|p l IH]; intros Hnd Hin; [inversion Hin|].
  apply NoDup_cons in Hnd as [Hp Hnd]. simpl. unfold creations_of in *.
  apply elem_of_cons in Hin as [->|Hin].
  - rewrite filter_cons_True by reflexivity. f_equal.
    now apply creations_of_batches_absent.
  - rewrite filter_cons_False; [now apply IH|].
    intros [= ->]. contradiction.
Qed.

End CallFacts.

(** ** Keys that the loop passes over, and requests that agree on the rest *)

Module IgnoredFacts.
Import KeyFacts LoopFacts.








End IgnoredFacts.

(** ** Sequences of requests *)

Module SequenceFacts.
Import LoopFacts CreationFacts HandlerFacts ServeFacts.

Lemma serve_all_cons view request requests w :
  serve_all view (request :: requests) w
  = serve_all view requests (snd (serve view request w)).
Proof. reflexivity. Qed.

(** No creation call is made for an id that has a slot already. *)
Lemma handler_creations_known request email unique_id w r w' pid :
  await (_addEntitiesFromRequest request email unique_id) w = (r, w') ->
  is_Some (sensors w !! pid) ->
  creations_of pid (calls w') = creations_of pid (calls w).
Proof.
  intros H [e He].
  apply handler_cases in H as [(_ & _ & ->)|[(_ & -> & _)|(Hq & Ha & H)]];
    [reflexivity|reflexivity|].
  assert (Hwrites : forall keys pending r1 w1,
    for_key_in (query request) keys pending w = (r1, w1) ->
    creations_of pid (calls w1) = creations_of pid (calls w)).
  { intros keys pending r1 w1 H1.
    destruct (for_key_in_calls _ _ _ _ _ _ H1) as (writes & -> & Hall).
    rewrite CallFacts.creations_of_app.
    rewrite (CallFacts.creations_of_no_creation pid writes);
      [now rewrite app_nil_r|].
    eapply Forall_impl; [exact Hall|]. intros c (p & v & -> & _). discriminate. }
  destruct (demultiplex_cases (query request) unique_id w)
    as [(ex & w1 & H1 & E)|(names & units & w1 & w2 & H1 & H2 & E)];
    rewrite E in H; injection H as Hr Hw; subst r w'.
  - eapply Hwrites; eauto.
  - assert (Hnd : NoDup (map fst names))
      by (eapply for_key_in_NoDup; [exact H1|constructor]).
    destruct (for_pid_name_in_spec names units unique_id w1 Hnd)
      as (w3 & H3 & Hcalls & _).
    unfold PyDict.items in H2. rewrite H2 in H3. injection H3 as <-.
    rewrite Hcalls, CallFacts.creations_of_app, (Hwrites _ _ _ _ H1).
    rewrite CallFacts.creations_of_batches_absent; [now rewrite app_nil_r|].
    intros (Hnone & _)%list_elem_of_filter.
    pose proof (for_key_in_lookup _ _ _ _ _ _ pid H1) as Hl.
    rewrite He in Hl. destruct Hl as (st & Hl & _). congruence.
Qed.

(** A slot that exists is kept by every later request, with its entity;
    only the value of the entity may differ, and no creation call is made
    for its id. *)
Lemma serve_all_keeps view requests w pid e :
  sensors w !! pid = Some e ->
  (exists state,
     sensors (serve_all view requests w) !! pid = Some (with_state state e))
  /\ creations_of pid (calls (serve_all view requests w))
     = creations_of pid (calls w).
Proof.
  revert w e; induction requests as [|request requests IH]; intros w e He.
  - split; [|reflexivity]. exists (_state e). now rewrite with_state_same.
  - rewrite !serve_all_cons.
    destruct (serve view request w) as [r w1] eqn:H. unfold serve in H. simpl snd.
    pose proof (handler_lookup _ _ _ _ _ _ pid H) as Hl. rewrite He in Hl.
    destruct Hl as (st & He1 & _).
    destruct (IH _ _ He1) as [(st' & Hfinal) Hcalls]. split.
    + exists st'. exact Hfinal.
    + rewrite Hcalls. eapply handler_creations_known; [exact H|].
      rewrite He. eauto.
Qed.

(** A slot that appears was made by one request of the sequence, handled
    to its end, from the name and the unit which that request supplied. *)
Lemma serve_all_origin view requests w pid e' :
  sensors w !! pid = None ->
  sensors (serve_all view requests w) !! pid = Some e' ->
  exists before request after name unit state,
    requests = before ++ request :: after
    /\ sensors (serve_all view before w) !! pid = None
    /\ fst (serve view request (serve_all view before w)) = Returned (Some OK)
    /\ supplies Name request pid name
    /\ pending_unit request pid unit
    /\ sensors (serve_all view (before ++ [request]) w) !! pid
       = Some (TorqueSensor__init__ name unit (TorqueReceiveDataView.unique_id view))
    /\ e' = with_state state
              (TorqueSensor__init__ name unit (TorqueReceiveDataView.unique_id view)).
Proof.
  revert w; induction requests as [|request requests IH]; intros w Hnone He'.
  - simpl in He'. congruence.
  - rewrite serve_all_cons in He'.
    destruct (serve view request w) as [r w1] eqn:H. simpl snd in He'.
    pose proof H as H'. unfold serve in H'.
    pose proof (handler_lookup _ _ _ _ _ _ pid H') as Hl. rewrite Hnone in Hl.
    destruct Hl as [Hl|(-> & name & unit & Hname & Hunit & Hl)].
    + destruct (IH _ Hl He')
        as (before & rq & after & name & unit & st & -> & Hb & Hok & Hn & Hu & Hc & ->).
      exists (request :: before), rq, after, name, unit, st.
      rewrite <- !app_comm_cons, !serve_all_cons, H. simpl snd. auto 10.
    + destruct (serve_all_keeps view requests w1 pid _ Hl) as [(st & Hst) _].
      rewrite Hst in He'. injection He' as <-.
      exists [], request, requests, name, unit, st.
      rewrite !app_nil_l, !serve_all_cons, H. simpl.
      repeat split; try assumption. now rewrite H.
Qed.

End SequenceFacts.

(** ** The handler on the example requests *)

Module Examples.

Example key_classes :
  map classify
    ["userFullNameA1"; "userUnitA1"; "kA1"; "k0x1F"; "k1_0"; "k5-extra";
     "eml"; "k"; "userFullName"; "kind"; "userUnitzz"; "xk5"]
  = [Name 161; Unit 161; Value 161; Value 31; Value 16; Value 5;
     Ignored; Ignored; Ignored; Malformed "ind"; Malformed "zz"; Ignored].
Proof. reflexivity. Qed.

(** A first request with a name, a unit and a value for a new id makes the
    entity and leaves it without a value; the next request gives it one. *)
Example new_id_then_value :
  let first := serve Scenario.open_view Scenario.speed_first Scenario.nothing in
  let next := serve Scenario.open_view Scenario.speed_next (snd first) in
  fst first = Returned (Some "OK!")
  /\ sensors (snd first) !! 161
     = Some {| _name := "Speed"; _unit := Some "mph";
               _attr_unique_id := "car_Speed"; _state := None |}
  /\ calls (snd first) = [async_add_job_add_entities [161]]
  /\ fst next = Returned (Some "OK!")
  /\ sensors (snd next) !! 161
     = Some {| _name := "Speed"; _unit := Some "mph";
               _attr_unique_id := "car_Speed"; _state := Some "60" |}
  /\ calls (snd next)
     = [async_add_job_add_entities [161]; async_write_ha_state 161 (Some "60")].
Proof. repeat split. Qed.

(** The handler, once awaited, does act on a request which the view's
    [get] lets pass without effect. *)
Example awaited_and_not_awaited :
  sensors (snd (serve Scenario.open_view Scenario.value_only Scenario.with_rpm)) !! 5
  = Some {| _name := "RPM"; _unit := Some "rpm";
            _attr_unique_id := "car_RPM"; _state := Some "42" |}
  /\ sensors (snd (TorqueReceiveDataView.get Scenario.open_view Scenario.value_only
                     Scenario.with_rpm)) !! 5
     = Some {| _name := "RPM"; _unit := Some "rpm";
               _attr_unique_id := "car_RPM"; _state := None |}.
Proof. split; reflexivity. Qed.

(** Two keys of one request for the same id, a name and a value *)
Example name_and_value_of_one_id :
  let run := serve Scenario.open_view
               {| query := [("userFullName2A", "Load"); ("k2A", "7")] |}
               Scenario.nothing in
  fst run = Returned (Some "OK!")
  /\ sensors (snd run) !! 42
     = Some {| _name := "Load"; _unit := None;
               _attr_unique_id := "car_Load"; _state := None |}.
Proof. split; reflexivity. Qed.

Example degree_unit :
  normalize_unit ("\xC2\xB0F") = String "176" "F"
  /\ normalize_unit "km/h" = "km/h".
Proof. split; reflexivity. Qed.

End Examples.

(** * The claims *)

Section Claims.
Import LoopFacts CreationFacts HandlerFacts ServeFacts.

(** C5. A request without any query parameter is answered with the text
    "No Torque Query Parameters"; the table and the call log stay as they
    were, so no entity is created or updated. A request with parameters
    that passes the sender check and has no malformed key is answered with
    "OK!"; a text answer is one of the two, and the two differ. *)
Theorem C5_empty_query_text_and_ok_text :
  (forall request email unique_id w,
     query request = [] ->
     await (_addEntitiesFromRequest request email unique_id) w
     = (Returned (Some "No Torque Query Parameters"), w))
  /\ (forall request email unique_id w,
        query request <> [] ->
        sender_accepted email (query request) ->
        Forall (fun key => is_malformed key = false)
               (MultiDict.keys (query request)) ->
        exists w',
          await (_addEntitiesFromRequest request email unique_id) w
          = (Returned (Some "OK!"), w'))
  /\ (forall request email unique_id w text w',
        await (_addEntitiesFromRequest request email unique_id) w
        = (Returned (Some text), w') ->
        (text = "No Torque Query Parameters" /\ query request = [] /\ w' = w)
        \/ (text = "OK!" /\ query request <> []))
  /\ String.eqb "OK!" "No Torque Query Parameters" = false.
Proof.
  split; [|split; [|split]].
  - intros. now apply handler_empty.
  - intros request email unique_id w Hq Ha Hall.
    rewrite handler_accepted by assumption.
    destruct (for_key_in_total (query request) (MultiDict.keys (query request))
                ([], ∅) w) as ([names units] & w1 & H1); [|assumption|].
    { intros key. apply getone_key. }
    destruct (demultiplex_cases (query request) unique_id w)
      as [(ex & w2 & H2 & _)|(n & u & w2 & w3 & _ & _ & E)].
    + rewrite H1 in H2. discriminate.
    + exists w3. exact E.
  - intros request email unique_id w text w' H.
    apply handler_cases in H
      as [(Hq & [= ->] & ->)|[(_ & _ & ex & _ & [[_ [=]]|(? & _ & _ & [=])])
                               |(Hq & Ha & H)]].
    + left. auto.
    + right. split; [|assumption].
      destruct (demultiplex_cases (query request) unique_id w)
        as [(ex & w2 & _ & E)|(n & u & w2 & w3 & _ & _ & E)];
        rewrite E in H; [discriminate|]. now injection H as <- _.
  - reflexivity.
Qed.

Lemma C5_witness :
  exists w',
    await (_addEntitiesFromRequest Scenario.speed_first None "car") Scenario.nothing
    = (Returned (Some "OK!"), w').
Proof.
  apply (proj1 (proj2 C5_empty_query_text_and_ok_text)).
  - discriminate.
  - exact I.
  - repeat constructor.
Defined.

(** C6. When a sender filter is configured and the "eml" field of the
    request differs from it, the handler ends with a bare return: there is
    no response text, and the table and the call log are unchanged, so no
    entity is created and no value is written. *)
Theorem C6_sender_mismatch_is_a_silent_no_op :
  forall request expected sender unique_id w,
    MultiDict.getone (query request) SENSOR_EMAIL_FIELD = Some sender ->
    sender <> expected ->
    SENSOR_EMAIL_FIELD = "eml"
    /\ await (_addEntitiesFromRequest request (Some expected) unique_id) w
       = (Returned None, w).
Proof.
  intros request expected sender unique_id w Hs Hne. split; [reflexivity|].
  assert (Hq : query request <> []) by (intros E; rewrite E in Hs; discriminate).
  rewrite (handler_sender _ _ _ _ _ Hq Hs).
  apply String.eqb_neq in Hne. rewrite String.eqb_sym in Hne. now rewrite Hne.
Qed.

Lemma C6_witness :
  SENSOR_EMAIL_FIELD = "eml"
  /\ await (_addEntitiesFromRequest Scenario.from_stranger
              (Some "me@example.org") "car") Scenario.with_rpm
     = (Returned None, Scenario.with_rpm).
Proof.
  apply (C6_sender_mismatch_is_a_silent_no_op
           Scenario.from_stranger "me@example.org" "you@example.org").
  - reflexivity.
  - discriminate.
Defined.

(** C9. With a sender filter configured, a request that has query
    parameters but no "eml" key makes the handler raise [KeyError]: the
    request is neither dropped silently nor processed. The silent drop
    happens only for a request whose "eml" field is present and differs
    from the filter. *)
Theorem C9_missing_sender_field_raises_key_error :
  (forall request expected unique_id w,
     query request <> [] ->
     "eml" ∉ MultiDict.keys (query request) ->
     await (_addEntitiesFromRequest request (Some expected) unique_id) w
     = (Raised (KeyError "eml"), w))
  /\ (forall request email unique_id w w',
        await (_addEntitiesFromRequest request email unique_id) w
        = (Returned None, w') ->
        exists expected sender,
          email = Some expected
          /\ MultiDict.getone (query request) "eml" = Some sender
          /\ sender <> expected /\ w' = w).
Proof.
  split.
  - intros request expected unique_id w Hq Hno.
    apply handler_no_sender; [assumption|]. now apply getone_None.
  - intros request email unique_id w w' H.
    apply handler_cases in H
      as [(_ & [=] & _)|[(_ & -> & ex & -> & [[_ [=]]|(sender & Hs & Hne & _)])
                        |(Hq & Ha & H)]].
    + exists ex, sender. auto.
    + destruct (demultiplex_cases (query request) unique_id w)
        as [(ex & w2 & _ & E)|(n & u & w2 & w3 & _ & _ & E)];
        rewrite E in H; discriminate.
Qed.

Lemma C9_witness :
  await (_addEntitiesFromRequest Scenario.value_only (Some "me@example.org") "car")
    Scenario.with_rpm
  = (Raised (KeyError "eml"), Scenario.with_rpm).
Proof.
  apply (proj1 C9_missing_sender_field_raises_key_error).
  - discriminate.
  - apply getone_None. reflexivity.
Defined.

(** C10. The GET handler of the registered view calls the asynchronous
    handler without awaiting it and ends without a return statement: for
    every request it returns [None], and the table and the call log are
    what they were, so nothing is classified, created or updated. *)
Theorem C10_view_get_never_runs_the_handler :
  forall self request w,
    TorqueReceiveDataView.get self request w = (Returned None, w).
Proof. reflexivity. Qed.

(** C1. A value key whose id has a slot in the table overwrites the value
    of the entity in that slot with the text stored under the key (the last
    such key of the request decides): the slot then holds the entity with
    the same name, unit and unique id and with that text as its value. No
    entity is created for that id. A
    slot that did not exist before a request holds, after it, an entity
    without a value, whatever keys the request carried; and the value of an
    entity changes in a request only through a value key for its id, so a
    new entity gets its first value from a later request. *)
Theorem C1_value_keys_update_known_entities_only :
  forall request email unique_id w r w',
    await (_addEntitiesFromRequest request email unique_id) w = (r, w') ->
    (forall pid e v,
       r = Returned (Some OK) ->
       sensors w !! pid = Some e ->
       supplies Value request pid v ->
       sensors w' !! pid
       = Some {| _name := _name e;
                 _unit := _unit e;
                 _attr_unique_id := _attr_unique_id e;
                 _state := Some v |}
       /\ creations_of pid (calls w') = creations_of pid (calls w))
    /\ (forall pid e',
          sensors w !! pid = None -> sensors w' !! pid = Some e' ->
          _state e' = None)
    /\ (forall pid e e',
          sensors w !! pid = Some e -> sensors w' !! pid = Some e' ->
          e' = e
          \/ exists key v,
               key ∈ MultiDict.keys (query request)
               /\ classify key = Value pid
               /\ MultiDict.getone (query request) key = Some v
               /\ e' = {| _name := _name e;
                          _unit := _unit e;
                          _attr_unique_id := _attr_unique_id e;
                          _state := Some v |}).
Proof.
  intros request email unique_id w r w' H. split; [|split].
  - intros pid e v -> He (keys1 & key & keys2 & Hk & Hc & Hall & Hv).
    apply handler_ok_inv in H as (_ & _ & names & units & w1 & H1 & Hnd & H2).
    destruct (for_pid_name_in_spec names units unique_id w1 Hnd)
      as (w2 & H3 & Hcalls & Hlook).
    unfold PyDict.items in H2. rewrite H2 in H3. injection H3 as <-.
    rewrite Hk in H1.
    pose proof (for_key_in_value_last _ _ _ _ _ _ _ _ _ _ _ H1 Hc Hall Hv He)
      as He1.
    split.
    + now rewrite Hlook, He1.
    + destruct (for_key_in_calls _ _ _ _ _ _ H1) as (writes & Hw & Hall').
      rewrite Hcalls, Hw, !CallFacts.creations_of_app.
      rewrite (CallFacts.creations_of_no_creation pid writes).
      * rewrite CallFacts.creations_of_batches_absent; [now rewrite !app_nil_r|].
        intros (Hnone & _)%list_elem_of_filter. congruence.
      * eapply Forall_impl; [exact Hall'|]. intros c (p & v' & -> & _).
        discriminate.
  - intros pid e' Hnone He'.
    apply handler_lookup with (pid := pid) in H. rewrite Hnone in H.
    destruct H as [H|(_ & name & unit & _ & _ & H)]; rewrite H in He'.
    + discriminate.
    + now injection He' as <-.
  - intros pid e e' He He'.
    apply handler_lookup with (pid := pid) in H. rewrite He in H.
    destruct H as (st & H & Hst). rewrite H in He'. injection He' as <-.
    destruct Hst as [->|(key & v & Hin & Hc & Hv & ->)].
    + left. apply with_state_same.
    + right. exists key, v. auto.
Qed.

Lemma C1_witness :
  sensors (snd (await (_addEntitiesFromRequest Scenario.value_only None "car")
                  Scenario.with_rpm)) !! 5
  = Some {| _name := "RPM";
            _unit := Some "rpm";
            _attr_unique_id := "car_RPM";
            _state := Some "42" |}
  /\ creations_of 5
       (calls (snd (await (_addEntitiesFromRequest Scenario.value_only None "car")
                      Scenario.with_rpm)))
     = creations_of 5 (calls Scenario.with_rpm).
Proof.
  apply (proj1 (C1_value_keys_update_known_entities_only
                  Scenario.value_only None "car" Scenario.with_rpm
                  (Returned (Some OK)) _ eq_refl)
           5 (TorqueSensor__init__ "RPM" (Some "rpm") "car") "42").
  - reflexivity.
  - reflexivity.
  - exists [], "k5", []. repeat split. constructor.
Defined.





Lemma malformed_of_match p key literal :
  p ∈ [NAME_KEY; UNIT_KEY; VALUE_KEY] ->
  Re.match_ p key = Some literal -> PyInt.int16 literal = None ->
  classify key = Malformed literal.
Proof.
  intros Hp Hm Hd. apply KeyFacts.classify_malformed. split; [assumption|].
  repeat (apply elem_of_cons in Hp as [->|Hp]).
  - now left.
  - destruct (KeyFacts.unit_match_excludes _ _ Hm). auto.
  - destruct (KeyFacts.value_match_excludes _ _ Hm). auto.
  - inversion Hp.
Qed.

Lemma pair_of_fst {A B} (x : A * B) a : fst x = a -> x = (a, snd x).
Proof. destruct x; simpl; now intros ->. Qed.

(** C3. When a request that passes the guards holds a key that one of the
    three patterns matches and whose captured identifier [int] refuses in
    base 16, the handler raises the [ValueError] of the decoding and returns
    nothing: the key is not skipped. The error is that of the first such
    key in iteration order, and the world the handler leaves is the one the
    keys before it have made, so values written by earlier keys stay
    written. An identifier is refused, in particular, when it holds a
    character that is neither a hexadecimal digit, nor an underscore, nor
    the letter x. *)
Theorem C3_malformed_identifier_fails_the_request :
  (forall request email unique_id w p key literal,
     sender_accepted email (query request) ->
     key ∈ MultiDict.keys (query request) ->
     p ∈ [NAME_KEY; UNIT_KEY; VALUE_KEY] ->
     Re.match_ p key = Some literal ->
     PyInt.int16 literal = None ->
     exists refused w',
       await (_addEntitiesFromRequest request email unique_id) w
       = (Raised (ValueError refused), w')
       /\ PyInt.int16 refused = None)
  /\ (forall request email unique_id w keys1 key keys2 literal,
        sender_accepted email (query request) ->
        MultiDict.keys (query request) = keys1 ++ key :: keys2 ->
        Forall (fun k => is_malformed k = false) keys1 ->
        classify key = Malformed literal ->
        exists pending1 w1,
          for_key_in (query request) keys1 ([], ∅) w = (Returned pending1, w1)
          /\ await (_addEntitiesFromRequest request email unique_id) w
             = (Raised (ValueError literal), w1))
  /\ (forall p key literal,
        Re.match_ p key = Some literal ->
        Text.has_char not_hexadecimal literal = true ->
        PyInt.int16 literal = None)
  /\ (exists w',
        await (_addEntitiesFromRequest Scenario.value_then_malformed None "car")
          Scenario.with_rpm
        = (Raised (ValueError "zz"), w')
        /\ sensors w' !! 5
           = Some (with_state (Some "42")
                     (TorqueSensor__init__ "RPM" (Some "rpm") "car"))
        /\ calls w' = [async_write_ha_state 5 (Some "42")]).
Proof.
  assert (Hfirst : forall request email unique_id w keys1 key keys2 literal,
    sender_accepted email (query request) ->
    MultiDict.keys (query request) = keys1 ++ key :: keys2 ->
    Forall (fun k => is_malformed k = false) keys1 ->
    classify key = Malformed literal ->
    exists pending1 w1,
      for_key_in (query request) keys1 ([], ∅) w = (Returned pending1, w1)
      /\ await (_addEntitiesFromRequest request email unique_id) w
         = (Raised (ValueError literal), w1)).
  { intros request email unique_id w keys1 key keys2 literal Ha Hk Hall Hc.
    destruct (for_key_in_malformed (query request) keys1 key keys2 literal
                ([], ∅) w) as (p1 & w1 & H1 & H2); try assumption.
    { intros k Hin. apply getone_key. rewrite Hk, elem_of_app. now left. }
    exists p1, w1. split; [assumption|].
    rewrite handler_accepted; [|intros E; rewrite E in Hk; now destruct keys1|assumption].
    unfold demultiplex, bind. now rewrite Hk, H2. }
  split; [|split; [exact Hfirst|split]].
  - intros request email unique_id w p key literal Ha Hin Hp Hm Hd.
    pose proof (malformed_of_match _ _ _ Hp Hm Hd) as Hc.
    destruct (first_malformed (MultiDict.keys (query request)))
      as [Hall|(keys1 & k & keys2 & lit & Hk & Hall & Hck)].
    + rewrite Forall_forall in Hall. specialize (Hall key Hin).
      unfold is_malformed in Hall. rewrite Hc in Hall. discriminate.
    + destruct (Hfirst request email unique_id w _ _ _ _ Ha Hk Hall Hck)
        as (p1 & w1 & _ & H).
      exists lit, w1. split; [assumption|].
      now apply KeyFacts.classify_malformed in Hck.
  - intros p key literal Hm Hb.
    apply PyIntFacts.int16_refuses; [|assumption].
    apply KeyFacts.match_group in Hm as [-> _].
    apply PyIntFacts.all_chars_take_while.
  - eexists. split; [apply pair_of_fst; reflexivity|]. split; reflexivity.
Qed.

Lemma C3_witness :
  exists refused w',
    await (_addEntitiesFromRequest Scenario.value_then_malformed None "car")
      Scenario.with_rpm
    = (Raised (ValueError refused), w')
    /\ PyInt.int16 refused = None.
Proof.
  apply (proj1 C3_malformed_identifier_fails_the_request
           Scenario.value_then_malformed None "car" Scenario.with_rpm
           VALUE_KEY "kzz" "zz").
  - exact I.
  - apply elem_of_cons; right. apply elem_of_cons; now left.
  - apply elem_of_cons; right. apply elem_of_cons; right. apply elem_of_cons; now left.
  - reflexivity.
  - reflexivity.
Defined.


(** C7. The text of a unit key is stored in the pending units after every
    occurrence of the eight characters backslash, x, C, 2, backslash, x, B,
    0 has been replaced by the degree sign: the stored text holds no such
    occurrence any more, each occurrence that is found when reading from
    the left gives way to one degree sign while the text before it is
    kept, and a text without an occurrence is stored as it is. An entity
    created by the request carries the unit in this form. *)
Theorem C7_degree_sign_in_units :
  (forall data key pid text names units w,
     classify key = Unit pid ->
     MultiDict.getone data key = Some text ->
     classify_key data key (names, units) w
     = (Returned (names, <[pid := normalize_unit text]> units), w))
  /\ (forall text, Text.contains ESCAPED_DEGREE (normalize_unit text) = false)
  /\ (forall before after,
        Text.contains ESCAPED_DEGREE before = false ->
        normalize_unit (before +:+ ESCAPED_DEGREE +:+ after)
        = before +:+ DEGREE +:+ normalize_unit after)
  /\ (forall text,
        Text.contains ESCAPED_DEGREE text = false -> normalize_unit text = text)
  /\ (forall request email unique_id w w' pid text e',
        await (_addEntitiesFromRequest request email unique_id) w
        = (Returned (Some OK), w') ->
        sensors w !! pid = None ->
        sensors w' !! pid = Some e' ->
        supplies Unit request pid text ->
        _unit e' = Some (normalize_unit text))
  /\ (ESCAPED_DEGREE
      = String "092" (String "x" (String "C" (String "2"
          (String "092" (String "x" (String "B" (String "0" EmptyString))))))))
  /\ DEGREE = String "176" EmptyString.
Proof.
  repeat apply conj.
  - intros. now apply step_unit.
  - apply UnitFacts.normalize_unit_clean.
  - apply UnitFacts.normalize_unit_occurrence.
  - apply UnitFacts.normalize_unit_absent.
  - intros request email unique_id w w' pid text e' H Hnone He'
      (keys1 & key & keys2 & Hk & Hc & Hall & Hv).
    apply handler_ok_inv in H as (_ & _ & names & units & w1 & H1 & Hnd & H2).
    destruct (for_pid_name_in_spec names units unique_id w1 Hnd)
      as (w2 & H3 & _ & Hlook).
    unfold PyDict.items in H2. rewrite H2 in H3. injection H3 as <-.
    pose proof (for_key_in_lookup _ _ _ _ _ _ pid H1) as Hl.
    rewrite Hnone in Hl. rewrite Hlook, Hl in He'.
    destruct (PyDict.get names pid) as [name|]; [|discriminate].
    injection He' as <-. simpl. rewrite Hk in H1.
    exact (for_key_in_unit_last _ _ _ _ _ _ _ _ _ _ _ _ H1 Hc Hall Hv).
  - reflexivity.
  - reflexivity.
Qed.

Lemma C7_witness :
  normalize_unit ("" +:+ ESCAPED_DEGREE +:+ "F") = "" +:+ DEGREE +:+ normalize_unit "F".
Proof.
  apply (proj1 (proj2 (proj2 C7_degree_sign_in_units))). reflexivity.
Defined.


(** C8. When a request has been handled to its end, the calls made after
    the keys were read are the creation calls: one call to the add-entities
    collaborator for each id that has a pending name and no slot in the
    table, in the order of the pending names, each with a batch of one
    entity. The entity put in the slot carries the pending name, the
    pending unit of the same request or no unit when the request has none,
    the identifier made of the unique id, an underscore and the name, and
    no value. No other slot is touched by these calls. *)
Theorem C8_one_creation_call_per_new_id :
  forall request email unique_id w w',
    await (_addEntitiesFromRequest request email unique_id) w
    = (Returned (Some OK), w') ->
    exists names units w1,
      for_key_in (query request) (MultiDict.keys (query request)) ([], ∅) w
      = (Returned (names, units), w1)
      /\ NoDup (map fst names)
      /\ calls w' = calls w1 ++
           map (fun pid => async_add_job_add_entities [pid])
               (filter (fun pid => sensors w1 !! pid = None) (map fst names))
      /\ (forall pid name,
            PyDict.get names pid = Some name ->
            sensors w1 !! pid = None ->
            sensors w' !! pid
            = Some {| _name := name;
                      _unit := units !! pid;
                      _attr_unique_id := unique_id +:+ "_" +:+ name;
                      _state := None |}
            /\ creations_of pid (calls w')
               = creations_of pid (calls w1) ++ [async_add_job_add_entities [pid]]
            /\ supplies Name request pid name
            /\ pending_unit request pid (units !! pid))
      /\ (forall pid,
            PyDict.get names pid = None \/ is_Some (sensors w1 !! pid) ->
            sensors w' !! pid = sensors w1 !! pid
            /\ creations_of pid (calls w') = creations_of pid (calls w1)).
Proof.
  intros request email unique_id w w' H.
  apply handler_ok_inv in H as (_ & _ & names & units & w1 & H1 & Hnd & H2).
  destruct (for_pid_name_in_spec names units unique_id w1 Hnd)
    as (w2 & H3 & Hcalls & Hlook).
  unfold PyDict.items in H2. rewrite H2 in H3. injection H3 as <-.
  exists names, units, w1. repeat apply conj; try assumption.
  - intros pid name Hn Hnone. repeat apply conj.
    + now rewrite Hlook, Hnone, Hn.
    + rewrite Hcalls, CallFacts.creations_of_app. f_equal.
      apply CallFacts.creations_of_batches_present.
      * now apply NoDup_filter.
      * apply list_elem_of_filter. split; [assumption|].
        destruct (decide (pid ∈ map fst names)) as [Hin|Hin]; [assumption|].
        apply get_None in Hin. congruence.
    + destruct (for_key_in_name_inv _ _ _ _ _ _ _ _ _ H1 Hn)
        as (k1 & k & k2 & ? & ? & ? & ?). now exists k1, k, k2.
    + eapply pending_unit_of_loop; eauto.
  - intros pid Hpid. split.
    + rewrite Hlook. destruct (sensors w1 !! pid) as [e|] eqn:He; [reflexivity|].
      destruct Hpid as [->|[? ?]]; [reflexivity|discriminate].
    + rewrite Hcalls, CallFacts.creations_of_app.
      rewrite CallFacts.creations_of_batches_absent; [now rewrite app_nil_r|].
      intros (Hnone & Hin)%list_elem_of_filter.
      destruct Hpid as [Hn|[e He]]; [|congruence].
      apply get_None in Hn. contradiction.
Qed.

Lemma C8_witness :
  exists names units w1,
    for_key_in (query Scenario.speed_first)
      (MultiDict.keys (query Scenario.speed_first)) ([], ∅) Scenario.nothing
    = (Returned (names, units), w1)
    /\ NoDup (map fst names)
    /\ calls (snd (await (_addEntitiesFromRequest Scenario.speed_first None "car")
                     Scenario.nothing))
       = calls w1 ++
           map (fun pid => async_add_job_add_entities [pid])
               (filter (fun pid => sensors w1 !! pid = None) (map fst names))
    /\ (forall pid name,
          PyDict.get names pid = Some name ->
          sensors w1 !! pid = None ->
          sensors (snd (await (_addEntitiesFromRequest Scenario.speed_first None "car")
                          Scenario.nothing)) !! pid
          = Some {| _name := name;
                    _unit := units !! pid;
                    _attr_unique_id := "car" +:+ "_" +:+ name;
                    _state := None |}
          /\ creations_of pid
               (calls (snd (await (_addEntitiesFromRequest Scenario.speed_first
                                     None "car") Scenario.nothing)))
             = creations_of pid (calls w1) ++ [async_add_job_add_entities [pid]]
          /\ supplies Name Scenario.speed_first pid name
          /\ pending_unit Scenario.speed_first pid (units !! pid))
    /\ (forall pid,
          PyDict.get names pid = None \/ is_Some (sensors w1 !! pid) ->
          sensors (snd (await (_addEntitiesFromRequest Scenario.speed_first None "car")
                          Scenario.nothing)) !! pid
          = sensors w1 !! pid
          /\ creations_of pid
               (calls (snd (await (_addEntitiesFromRequest Scenario.speed_first
                                     None "car") Scenario.nothing)))
             = creations_of pid (calls w1)).
Proof.
  apply (C8_one_creation_call_per_new_id Scenario.speed_first None "car"
           Scenario.nothing).
  apply pair_of_fst. reflexivity.
Defined.


(** C4, as the code has it. Over every sequence of requests handled by
    one view, whatever each run returns or raises: a slot of the table is
    never removed, and its entity keeps its name, its unit and its
    identifier; no further creation call is made for its id. A slot that
    appears was made by one request of the sequence, handled to its end
    while the id had no slot, from the name that request supplies for the
    id and from its unit for the id, or without a unit when it supplies
    none; whether a value for the id was ever seen plays no part. Later
    names and units for the id change nothing. *)
Theorem C4_slots_are_made_from_names_and_kept :
  forall view requests w pid,
    (forall e,
       sensors w !! pid = Some e ->
       (exists e',
          sensors (serve_all view requests w) !! pid = Some e'
          /\ _name e' = _name e /\ _unit e' = _unit e
          /\ _attr_unique_id e' = _attr_unique_id e)
       /\ creations_of pid (calls (serve_all view requests w))
          = creations_of pid (calls w))
    /\ (forall e',
          sensors w !! pid = None ->
          sensors (serve_all view requests w) !! pid = Some e' ->
          exists before request after name unit,
            requests = before ++ request :: after
            /\ sensors (serve_all view before w) !! pid = None
            /\ fst (serve view request (serve_all view before w))
               = Returned (Some OK)
            /\ supplies Name request pid name
            /\ pending_unit request pid unit
            /\ sensors (serve_all view (before ++ [request]) w) !! pid
               = Some {| _name := name;
                         _unit := unit;
                         _attr_unique_id :=
                           TorqueReceiveDataView.unique_id view +:+ "_" +:+ name;
                         _state := None |}
            /\ _name e' = name /\ _unit e' = unit
            /\ _attr_unique_id e'
               = TorqueReceiveDataView.unique_id view +:+ "_" +:+ name).
Proof.
  intros view requests w pid. split.
  - intros e He.
    destruct (SequenceFacts.serve_all_keeps view requests w pid e He)
      as [(st & Hst) Hcalls].
    split; [|exact Hcalls]. exists (with_state st e). auto.
  - intros e' Hnone He'.
    destruct (SequenceFacts.serve_all_origin view requests w pid e' Hnone He')
      as (before & request & after & name & unit & st
          & Hr & Hb & Hok & Hn & Hu & Hc & ->).
    exists before, request, after, name, unit. repeat split; assumption.
Qed.

Lemma C4_witness :
  (exists e',
     sensors (serve_all Scenario.open_view
                [Scenario.name_unit_value; Scenario.value_only] Scenario.with_rpm)
       !! 5 = Some e'
     /\ _name e' = "RPM" /\ _unit e' = Some "rpm"
     /\ _attr_unique_id e' = "car_RPM")
  /\ creations_of 5
       (calls (serve_all Scenario.open_view
                 [Scenario.name_unit_value; Scenario.value_only] Scenario.with_rpm))
     = creations_of 5 (calls Scenario.with_rpm).
Proof.
  apply (proj1 (C4_slots_are_made_from_names_and_kept Scenario.open_view
                  [Scenario.name_unit_value; Scenario.value_only]
                  Scenario.with_rpm 5)
           (TorqueSensor__init__ "RPM" (Some "rpm") "car")).
  reflexivity.
Defined.

(** C4, as the claim words it, fails. After a request that holds a name
    for id 5 and no value at all, the table has an entity for the id,
    named "Early" and without a unit. The next request is the first to
    hold a value for the id, and it supplies the name "Late" and the unit
    "km"; after it the entity is still named "Early" and still has no
    unit. *)
Lemma C4_counterexample :
  silent Value Scenario.name_only 5
  /\ sensors (serve_all Scenario.open_view [Scenario.name_only] Scenario.nothing)
       !! 5
     = Some {| _name := "Early"; _unit := None;
               _attr_unique_id := "car_Early"; _state := None |}
  /\ supplies Value Scenario.name_unit_value 5 "1"
  /\ supplies Name Scenario.name_unit_value 5 "Late"
  /\ supplies Unit Scenario.name_unit_value 5 "km"
  /\ sensors (serve_all Scenario.open_view
                [Scenario.name_only; Scenario.name_unit_value] Scenario.nothing)
       !! 5
     = Some {| _name := "Early"; _unit := None;
               _attr_unique_id := "car_Early"; _state := Some "1" |}.
Proof.
  repeat apply conj.
  - repeat constructor. discriminate.
  - reflexivity.
  - exists ["userFullName5"; "userUnit5"], "k5", []. repeat split. constructor.
  - exists [], "userFullName5", ["userUnit5"; "k5"].
    repeat split. repeat constructor; discriminate.
  - exists ["userFullName5"], "userUnit5", ["k5"].
    repeat split. repeat constructor; discriminate.
  - reflexivity.
Qed.

End Claims.

(** * Further properties of the code *)

(** ** Identifiers *)

Module IdentifierFacts.
Import Text PyInt PyIntFacts.

Lemma hex_value_bounds c d : hex_value c = Some d -> 0 <= d < 16.
Proof.
  destruct c as [[] [] [] [] [] [] [] []]; vm_compute; intros H;
    solve [discriminate H | injection H as <-; split; [discriminate|reflexivity]].
Qed.

Lemma hex_digit_is_plain c d :
  hex_value c = Some d ->
  is_char 95 c = false /\ is_int_space c = false /\ is_char 43 c = false
  /\ is_char 45 c = false /\ is_char 120 c = false /\ is_char 88 c = false.
Proof.
  destruct c as [[] [] [] [] [] [] [] []]; intros H;
    solve [discriminate H | repeat split; reflexivity].
Qed.

Lemma scan_hex_digits s prev acc digits n :
  hex_digits_value s acc = Some n ->
  s <> EmptyString ->
  scan s prev acc digits = Some (n, (digits + String.length s)%nat, EmptyString).
Proof.
  revert prev acc digits; induction s as [|c s IH]; intros prev acc digits H Hne;
    [contradiction|].
  simpl in H |- *. destruct (hex_value c) as [d|] eqn:Hd; [|discriminate].
  destruct (hex_digit_is_plain c d Hd) as (-> & _).
  destruct s as [|c' s'].
  - simpl in H |- *. injection H as <-. do 3 f_equal. lia.
  - rewrite (IH false _ (S digits) H) by discriminate.
    do 3 f_equal. simpl. lia.
Qed.

Lemma hex_digits_value_bounds s acc n :
  hex_digits_value s acc = Some n -> 0 <= acc ->
  16 ^ Z.of_nat (String.length s) * acc <= n
  < 16 ^ Z.of_nat (String.length s) * (acc + 1).
Proof.
  revert acc; induction s as [|c s IH]; intros acc H Hacc.
  - simpl in H |- *. injection H as <-. lia.
  - simpl in H. destruct (hex_value c) as [d|] eqn:Hd; [|discriminate].
    apply hex_value_bounds in Hd.
    apply IH in H; [|lia].
    cbn [String.length]. rewrite Nat2Z.inj_succ, Z.pow_succ_r by lia.
    assert (0 < 16 ^ Z.of_nat (String.length s)) by (apply Z.pow_pos_nonneg; lia).
    nia.
Qed.

Lemma int16_hex_digits s n :
  hex_digits_value s 0 = Some n -> s <> EmptyString -> int16 s = Some n.
Proof.
  intros H Hne. unfold int16.
  destruct s as [|c s]; [contradiction|].
  pose proof H as H'. simpl in H'.
  destruct (hex_value c) as [d|] eqn:Hd; [|discriminate].
  destruct (hex_digit_is_plain c d Hd) as (Hu & Hsp & Hplus & Hminus & Hx & HX).
  simpl drop_while. rewrite Hsp, Hplus, Hminus.
  assert (Hskip : skip_base_prefix (String c s) = String c s).
  { unfold skip_base_prefix. destruct s as [|c1 s1]; [reflexivity|].
    destruct (is_char 48 c && (is_char 120 c1 || is_char 88 c1)) eqn:E;
      [|reflexivity].
    exfalso. apply andb_prop in E as [_ E].
    simpl in H'. destruct (hex_value c1) as [d1|] eqn:Hd1; [|discriminate].
    destruct (hex_digit_is_plain c1 d1 Hd1) as (_ & _ & _ & _ & Hx1 & HX1).
    rewrite Hx1, HX1 in E. discriminate. }
  rewrite Hskip. cbn [starts_with_underscore]. rewrite Hu.
  rewrite (scan_hex_digits _ false 0 0%nat n H) by discriminate.
  reflexivity.
Qed.

(** The digit loop keeps a number that is not negative so. *)
Lemma scan_nonneg s prev acc digits n digits' rest :
  scan s prev acc digits = Some (n, digits', rest) -> 0 <= acc -> 0 <= n.
Proof.
  revert prev acc digits; induction s as [|c s IH]; intros prev acc digits H Hacc.
  - simpl in H. destruct prev; [discriminate|]. now injection H as <- _ _.
  - simpl in H. destruct (is_char 95 c).
    + destruct prev; [discriminate|]. eapply IH; eauto.
    + destruct (hex_value c) as [d|] eqn:Hd.
      * apply hex_value_bounds in Hd. eapply IH; [exact H|lia].
      * destruct prev; [discriminate|]. now injection H as <- _ _.
Qed.

Lemma int16_word_nonneg s n :
  all_chars is_word s = true -> int16 s = Some n -> 0 <= n.
Proof.
  intros Hw. unfold int16.
  destruct s as [|c s].
  - simpl. discriminate.
  - assert (Hc : is_word c = true) by (simpl in Hw; now apply andb_prop in Hw).
    destruct (word_is_no_space_or_sign c Hc) as (Hsp & Hplus & Hminus).
    simpl drop_while. rewrite Hsp, Hplus, Hminus.
    destruct (starts_with_underscore _); [discriminate|].
    destruct (scan _ false 0 0) as [[[m d] rest]|] eqn:Hs; [|discriminate].
    destruct d; [discriminate|].
    destruct (is_empty _); [|discriminate].
    intros [= <-]. eapply scan_nonneg; [exact Hs|lia].
Qed.

Lemma classified_pid_nonneg key pid :
  classify key = Name pid \/ classify key = Unit pid \/ classify key = Value pid ->
  0 <= pid.
Proof.
  intros [H|[H|H]].
  - apply KeyFacts.classify_name in H as (g & Hm & Hd).
    apply KeyFacts.match_group in Hm as [-> _].
    eapply int16_word_nonneg; [apply all_chars_take_while|exact Hd].
  - apply KeyFacts.classify_unit in H as (_ & g & Hm & Hd).
    apply KeyFacts.match_group in Hm as [-> _].
    eapply int16_word_nonneg; [apply all_chars_take_while|exact Hd].
  - apply KeyFacts.classify_value in H as (_ & _ & g & Hm & Hd).
    apply KeyFacts.match_group in Hm as [-> _].
    eapply int16_word_nonneg; [apply all_chars_take_while|exact Hd].
Qed.

End IdentifierFacts.

(** ** Table and host *)

Module ConsistencyFacts.
Import LoopFacts CreationFacts HandlerFacts ServeFacts.

Lemma batches_app l1 l2 : batches (l1 ++ l2) = batches l1 ++ batches l2.
Proof. apply omap_app. Qed.

Lemma batches_writes (P : Z -> Prop) (l : list call) :
  Forall (fun c => exists pid v, c = async_write_ha_state pid (Some v) /\ P pid) l ->
  batches l = [].
Proof.
  induction 1 as [|c l (pid & v & -> & _) _ IH]; [reflexivity|exact IH].
Qed.

Lemma batches_creations (l : list Z) :
  batches (map (fun pid => async_add_job_add_entities [pid]) l)
  = map (fun pid => [pid]) l.
Proof. induction l as [|p l IH]; [reflexivity|]. simpl. now rewrite <- IH. Qed.

Lemma writes_of_write pid l entity state :
  writes_of pid (l ++ [async_write_ha_state entity state])
  = writes_of pid l ++ (if Z.eqb entity pid then [state] else []).
Proof.
  unfold writes_of. rewrite omap_app. simpl.
  now destruct (Z.eqb entity pid).
Qed.

Lemma writes_of_creations pid l (created : list Z) :
  writes_of pid (l ++ map (fun p => async_add_job_add_entities [p]) created)
  = writes_of pid l.
Proof.
  unfold writes_of. rewrite omap_app.
  replace (omap _ (map _ created)) with (@nil (option string));
    [apply app_nil_r|].
  induction created as [|p created IH]; [reflexivity|exact IH].
Qed.

Lemma for_key_in_domain data keys pending w r w' pid :
  for_key_in data keys pending w = (r, w') ->
  is_Some (sensors w' !! pid) <-> is_Some (sensors w !! pid).
Proof.
  intros H. apply for_key_in_lookup with (pid := pid) in H.
  destruct (sensors w !! pid) as [e|].
  - destruct H as (st & -> & _). split; eauto.
  - now rewrite H.
Qed.

(** The loop over the keys keeps the values in step with the state writes. *)
Lemma for_key_in_values data keys pending w r w' :
  for_key_in data keys pending w = (r, w') ->
  values_as_written w -> values_as_written w'.
Proof.
  revert pending w; induction keys as [|key keys IH]; intros pending w H Hw.
  - now injection H as _ <-.
  - rewrite for_key_in_cons in H.
    destruct (classify_key data key pending w) as [[p|ex] w1] eqn:Hs.
    + apply (IH _ _ H).
      apply step_world in Hs as [->|(pid0 & e0 & v0 & _ & He & _ & _ & ->)];
        [exact Hw|].
      intros pid. destruct (Hw pid) as [Hall Hpid]. simpl.
      unfold last_written. rewrite writes_of_write.
      destruct (Z.eqb_spec pid0 pid) as [->|Hne].
      * split; [apply Forall_app; split; [exact Hall|repeat constructor; eauto]|].
        rewrite lookup_alter_eq, He, last_snoc. reflexivity.
      * rewrite app_nil_r, lookup_alter_ne by assumption. now split.
    + injection H as _ <-.
      now apply step_world in Hs as [->|(? & ? & ? & _ & _ & _ & [=] & _)].
Qed.

Lemma handler_values request email unique_id w r w' :
  await (_addEntitiesFromRequest request email unique_id) w = (r, w') ->
  values_as_written w -> values_as_written w'.
Proof.
  intros H Hw.
  apply handler_cases in H as [(_ & _ & ->)|[(_ & -> & _)|(Hq & Ha & H)]];
    [assumption|assumption|].
  destruct (demultiplex_cases (query request) unique_id w)
    as [(ex & w1 & H1 & E)|(names & units & w1 & w2 & H1 & H2 & E)];
    rewrite E in H; injection H as Hr Hw'; subst r w'.
  - eapply for_key_in_values; eauto.
  - pose proof (for_key_in_values _ _ _ _ _ _ H1 Hw) as Hw1.
    assert (Hnd : NoDup (map fst names))
      by (eapply for_key_in_NoDup; [exact H1|constructor]).
    destruct (for_pid_name_in_spec names units unique_id w1 Hnd)
      as (w3 & H3 & Hcalls & Hlook).
    unfold PyDict.items in H2. rewrite H2 in H3. injection H3 as <-.
    intros pid. destruct (Hw1 pid) as [Hall Hpid].
    unfold last_written in *. rewrite Hcalls, writes_of_creations, Hlook.
    split; [exact Hall|].
    destruct (sensors w1 !! pid) as [e|]; [exact Hpid|].
    rewrite Hpid. now destruct (PyDict.get names pid).
Qed.

Lemma handler_handed_over request email unique_id w r w' :
  await (_addEntitiesFromRequest request email unique_id) w = (r, w') ->
  handed_over_once w -> handed_over_once w'.
Proof.
  intros H Hw.
  apply handler_cases in H as [(_ & _ & ->)|[(_ & -> & _)|(Hq & Ha & H)]];
    [assumption|assumption|].
  destruct Hw as (order & Hnd & Hb & Hdom).
  assert (Hloop : forall r1 w1,
    for_key_in (query request) (MultiDict.keys (query request)) ([], ∅) w
    = (r1, w1) ->
    batches (calls w1) = map (fun pid => [pid]) order
    /\ forall pid, pid ∈ order <-> is_Some (sensors w1 !! pid)).
  { intros r1 w1 H1. split.
    - destruct (for_key_in_calls _ _ _ _ _ _ H1) as (writes & -> & Hall).
      rewrite batches_app, (batches_writes _ _ Hall), app_nil_r. exact Hb.
    - intros pid. rewrite (for_key_in_domain _ _ _ _ _ _ pid H1). apply Hdom. }
  destruct (demultiplex_cases (query request) unique_id w)
    as [(ex & w1 & H1 & E)|(names & units & w1 & w2 & H1 & H2 & E)];
    rewrite E in H; injection H as Hr Hw'; subst r w'.
  - destruct (Hloop _ _ H1) as [Hb1 Hdom1]. now exists order.
  - destruct (Hloop _ _ H1) as [Hb1 Hdom1].
    assert (Hndn : NoDup (map fst names))
      by (eapply for_key_in_NoDup; [exact H1|constructor]).
    destruct (for_pid_name_in_spec names units unique_id w1 Hndn)
      as (w3 & H3 & Hcalls & Hlook).
    unfold PyDict.items in H2. rewrite H2 in H3. injection H3 as <-.
    exists (order ++ filter (fun pid => sensors w1 !! pid = None) (map fst names)).
    split; [|split].
    + apply NoDup_app. split; [assumption|]. split; [|now apply NoDup_filter].
      intros pid Hin (Hnone & _)%list_elem_of_filter.
      apply Hdom1 in Hin as [e He]. congruence.
    + now rewrite Hcalls, batches_app, batches_creations, Hb1, map_app.
    + intros pid. rewrite elem_of_app, list_elem_of_filter, Hdom1, Hlook.
      destruct (sensors w1 !! pid) as [e|] eqn:He.
      * split; [eauto|]. intros _. left. eauto.
      * destruct (PyDict.get names pid) as [name|] eqn:Hn; simpl.
        -- split; [eauto|]. intros _. right. split; [reflexivity|].
           destruct (decide (pid ∈ map fst names)) as [Hin|Hin]; [assumption|].
           apply get_None in Hin. congruence.
        -- split; [|intros [? [=]]].
           intros [[? [=]]|[_ Hin]]. apply get_None in Hn. contradiction.
Qed.

Lemma serve_all_invariant (P : World -> Prop) view requests w :
  (forall request w r w',
     await (_addEntitiesFromRequest request
              (TorqueReceiveDataView.email view)
              (TorqueReceiveDataView.unique_id view)) w = (r, w') ->
     P w -> P w') ->
  P w -> P (serve_all view requests w).
Proof.
  intros Hstep. revert w; induction requests as [|request requests IH]; intros w Hw.
  - exact Hw.
  - rewrite SequenceFacts.serve_all_cons. apply IH.
    destruct (serve view request w) as [r w1] eqn:H. simpl. eapply Hstep; eauto.
Qed.

(** The outcome of reading the keys of a query does not depend on the
    table. *)
Lemma for_key_in_outcome data keys pending w1 w2 :
  (forall key, key ∈ keys -> is_Some (MultiDict.getone data key)) ->
  fst (for_key_in data keys pending w1) = fst (for_key_in data keys pending w2).
Proof.
  revert pending w1 w2; induction keys as [|key keys IH];
    intros [names units] w1 w2 Hget; [reflexivity|].
  assert (Hget' : forall k, k ∈ keys -> is_Some (MultiDict.getone data k))
    by (intros k Hin; apply Hget; now apply elem_of_cons; right).
  destruct (Hget key) as [v Hv]; [now apply elem_of_cons; left|].
  rewrite !for_key_in_cons.
  destruct (classify key) as [pid|pid|pid| |lit] eqn:Hc.
  - rewrite !(step_name _ _ _ _ _ _ _ Hc Hv). now apply IH.
  - rewrite !(step_unit _ _ _ _ _ _ _ Hc Hv). now apply IH.
  - assert (Hstep : forall w, exists w',
      classify_key data key (names, units) w = (Returned (names, units), w')).
    { intros w. destruct (sensors w !! pid) as [e|] eqn:He.
      - rewrite (step_value_known _ _ _ _ _ _ _ _ Hc He Hv). eauto.
      - rewrite (step_value_unknown _ _ _ _ _ _ Hc He). eauto. }
    destruct (Hstep w1) as [w1' ->]. destruct (Hstep w2) as [w2' ->].
    now apply IH.
  - rewrite !(step_ignored _ _ _ _ Hc). now apply IH.
  - now rewrite !(step_malformed _ _ _ _ _ Hc).
Qed.

Lemma demultiplex_outcome data unique_id w1 w2 :
  fst (demultiplex data unique_id w1) = fst (demultiplex data unique_id w2).
Proof.
  pose proof (for_key_in_outcome data (MultiDict.keys data) ([], ∅) w1 w2
                (fun key => getone_key data key)) as Hout.
  destruct (demultiplex_cases data unique_id w1)
    as [(ex1 & u1 & H1 & ->)|(n1 & un1 & u1 & v1 & H1 & _ & ->)];
    destruct (demultiplex_cases data unique_id w2)
      as [(ex2 & u2 & H2 & ->)|(n2 & un2 & u2 & v2 & H2 & _ & ->)];
    rewrite H1, H2 in Hout; simpl in Hout |- *; congruence.
Qed.

End ConsistencyFacts.

(** ** Further properties of the Torque handler *)

Section TorqueExtras.
Import LoopFacts HandlerFacts ServeFacts ConsistencyFacts.

(** X1. On a non-empty string of hexadecimal digits, of either case,
    [convert_pid] raises nothing and returns the number the digits denote in
    base 16, most significant digit first; the number is not negative and is
    below 16 to the power of the length of the string. *)
Theorem X1_convert_pid_reads_hexadecimal_digits :
  forall value n w,
    value <> EmptyString ->
    hex_digits_value value 0 = Some n ->
    convert_pid value w = (Returned n, w)
    /\ 0 <= n < 16 ^ Z.of_nat (String.length value).
Proof.
  intros value n w Hne H. split.
  - unfold convert_pid. now rewrite (IdentifierFacts.int16_hex_digits _ _ H Hne).
  - apply IdentifierFacts.hex_digits_value_bounds in H; lia.
Qed.

Lemma X1_witness :
  convert_pid "a1F" at_setup = (Returned 2591, at_setup)
  /\ 0 <= 2591 < 16 ^ Z.of_nat (String.length "a1F").
Proof.
  apply (X1_convert_pid_reads_hexadecimal_digits "a1F" 2591 at_setup).
  - discriminate.
  - reflexivity.
Defined.

(** X2. The identifier decoded from a name, unit or value key is never
    negative, so every slot of the table that requests have filled since
    set-up has a key that is not negative. *)
Theorem X2_metric_ids_are_not_negative :
  (forall key pid,
     classify key = Name pid \/ classify key = Unit pid
     \/ classify key = Value pid ->
     0 <= pid)
  /\ (forall view requests pid,
        is_Some (sensors (serve_all view requests at_setup) !! pid) -> 0 <= pid).
Proof.
  split; [apply IdentifierFacts.classified_pid_nonneg|].
  intros view requests pid [e He].
  destruct (SequenceFacts.serve_all_origin view requests at_setup pid e)
    as (_ & request & _ & name & _ & _ & _ & _ & _ & Hn & _);
    [apply lookup_empty|exact He|].
  destruct Hn as (_ & key & _ & _ & Hc & _).
  eapply IdentifierFacts.classified_pid_nonneg; eauto.
Qed.

Lemma X2_witness : 0 <= 161.
Proof.
  apply (proj1 X2_metric_ids_are_not_negative "kA1" 161).
  right; right. reflexivity.
Defined.

(** X3. When the state writes of the host succeed, as the handler takes
    them to and as [async_on_update] is modelled (a host refuses the write
    of an entity it has not yet added, which is outside this model), what
    the handler returns or raises is decided by the request and the sender
    filter alone: it is the same whatever the table holds and whatever the
    host has been called with. In particular a [KeyError] or [ValueError]
    of the loop over the keys does not depend on which ids have a slot. *)
Theorem X3_response_does_not_depend_on_the_table :
  forall request email unique_id w1 w2,
    fst (await (_addEntitiesFromRequest request email unique_id) w1)
    = fst (await (_addEntitiesFromRequest request email unique_id) w2).
Proof.
  intros request email unique_id w1 w2.
  destruct (query request) as [|kv rest] eqn:Hq.
  - now rewrite !handler_empty.
  - assert (Hne : query request <> []) by (rewrite Hq; discriminate).
    destruct email as [expected|].
    + destruct (MultiDict.getone (query request) SENSOR_EMAIL_FIELD)
        as [sender|] eqn:Hs.
      * rewrite !(handler_sender _ _ _ _ _ Hne Hs).
        destruct (String.eqb expected sender); [|reflexivity].
        apply demultiplex_outcome.
      * now rewrite !(handler_no_sender _ _ _ _ Hne Hs).
    + rewrite !handler_unfiltered by assumption. apply demultiplex_outcome.
Qed.

(** X4. Table and host stay in step on creation through every run of the
    handler, also one that raises: every batch handed to the add-entities
    collaborator has one entity, every slot of the table has been handed
    over exactly once, and nothing else has been handed over. This holds
    after any sequence of requests since set-up. *)
Theorem X4_entities_are_handed_over_exactly_once :
  (forall request email unique_id w r w',
     await (_addEntitiesFromRequest request email unique_id) w = (r, w') ->
     handed_over_once w -> handed_over_once w')
  /\ (forall view requests, handed_over_once (serve_all view requests at_setup)).
Proof.
  split; [apply handler_handed_over|].
  intros view requests. apply serve_all_invariant.
  - intros request w r w'. apply handler_handed_over.
  - exists []. split; [constructor|]. split; [reflexivity|].
    intros pid. split; [intros H; inversion H|].
    intros [e He]. simpl in He. now rewrite lookup_empty in He.
Qed.

Lemma X4_witness :
  handed_over_once
    (snd (await (_addEntitiesFromRequest Scenario.value_then_malformed None "car")
            at_setup)).
Proof.
  apply (proj1 X4_entities_are_handed_over_exactly_once
           Scenario.value_then_malformed None "car" at_setup
           (fst (await (_addEntitiesFromRequest Scenario.value_then_malformed
                          None "car") at_setup))).
  - now destruct (await _ at_setup).
  - apply (proj2 X4_entities_are_handed_over_exactly_once Scenario.open_view []).
Defined.

(** X5. Table and host stay in step on values through every run of the
    handler, also one that raises, when the state writes of the host
    succeed, as the handler takes them to: every state write carries a
    text; no state is ever written for an id without a slot; the value of
    an entity is the text its last state write carried; and an entity whose
    state was never written has no value. This holds after any sequence of
    requests since set-up. *)
Theorem X5_values_are_the_last_written_states :
  (forall request email unique_id w r w',
     await (_addEntitiesFromRequest request email unique_id) w = (r, w') ->
     values_as_written w -> values_as_written w')
  /\ (forall view requests, values_as_written (serve_all view requests at_setup)).
Proof.
  split; [apply handler_values|].
  intros view requests. apply serve_all_invariant.
  - intros request w r w'. apply handler_values.
  - intros pid. simpl. rewrite lookup_empty. split; [constructor|reflexivity].
Qed.

Lemma X5_witness :
  values_as_written
    (snd (await (_addEntitiesFromRequest Scenario.speed_next None "car")
            (serve_all Scenario.open_view [Scenario.speed_first] at_setup))).
Proof.
  apply (proj1 X5_values_are_the_last_written_states
           Scenario.speed_next None "car"
           (serve_all Scenario.open_view [Scenario.speed_first] at_setup)
           (fst (await (_addEntitiesFromRequest Scenario.speed_next None "car")
                   (serve_all Scenario.open_view [Scenario.speed_first]
                      at_setup)))).
  - now destruct (await _ (serve_all _ _ _)).
  - apply (proj2 X5_values_are_the_last_written_states Scenario.open_view
             [Scenario.speed_first]).
Defined.

(** X6. A request whose "eml" field equals the configured sender filter
    is handled exactly as the same request is handled without a filter:
    same result, same table, same calls. *)
Theorem X6_matching_sender_is_handled_as_unfiltered :
  forall request expected unique_id w,
    MultiDict.getone (query request) SENSOR_EMAIL_FIELD = Some expected ->
    await (_addEntitiesFromRequest request (Some expected) unique_id) w
    = await (_addEntitiesFromRequest request None unique_id) w.
Proof.
  intros request expected unique_id w Hs.
  assert (Hq : query request <> []) by (intros E; rewrite E in Hs; discriminate).
  rewrite (handler_accepted request (Some expected)) by assumption.
  now rewrite handler_unfiltered.
Qed.

Lemma X6_witness :
  await (_addEntitiesFromRequest Scenario.from_stranger
           (Some "you@example.org") "car") Scenario.with_rpm
  = await (_addEntitiesFromRequest Scenario.from_stranger None "car")
      Scenario.with_rpm.
Proof.
  apply (X6_matching_sender_is_handled_as_unfiltered Scenario.from_stranger).
  reflexivity.
Defined.

End TorqueExtras.

(** ** The same request handled again *)

Module ReplayFacts.
Import LoopFacts CreationFacts HandlerFacts ConsistencyFacts.









End ReplayFacts.

Section ReplayExtras.
Import ReplayFacts ConsistencyFacts.


End ReplayExtras.

(** ** Unique ids of the Torque entities *)

Section IdentityExtras.
Import SequenceFacts.

(** X13. The unique id of a Torque entity is made of the unique id of the
    view, an underscore and the name of the entity, and it stays so
    through every sequence of requests since set-up. So two entities of
    one table have the same unique id exactly when they have the same
    name: ids that are sent with different names get different unique
    ids, and two ids that are sent with one name get one unique id. *)
Theorem X13_unique_ids_follow_names :
  forall view requests pid1 pid2 e1 e2,
    sensors (serve_all view requests at_setup) !! pid1 = Some e1 ->
    sensors (serve_all view requests at_setup) !! pid2 = Some e2 ->
    _attr_unique_id e1
    = TorqueReceiveDataView.unique_id view +:+ "_" +:+ _name e1
    /\ (_attr_unique_id e1 = _attr_unique_id e2 <-> _name e1 = _name e2).
Proof.
  intros view requests pid1 pid2 e1 e2 H1 H2.
  assert (Hmade : forall pid e,
            sensors (serve_all view requests at_setup) !! pid = Some e ->
            _attr_unique_id e
            = TorqueReceiveDataView.unique_id view +:+ "_" +:+ _name e).
  { intros pid e He.
    apply serve_all_origin in He
      as (_ & _ & _ & name & unit & state & _ & _ & _ & _ & _ & _ & ->);
      [reflexivity|apply lookup_empty]. }
  split; [now apply (Hmade pid1)|].
  rewrite (Hmade _ _ H1), (Hmade _ _ H2). split.
  - generalize (TorqueReceiveDataView.unique_id view).
    intros p; induction p as [|c p IH]; simpl; intros H.
    + now injection H.
    + injection H as H. now apply IH.
  - now intros ->.
Qed.

Lemma X13_witness :
  _attr_unique_id (TorqueSensor__init__ "Speed" None "car") = "car_Speed"
  /\ (_attr_unique_id (TorqueSensor__init__ "Speed" None "car")
      = _attr_unique_id (TorqueSensor__init__ "Speed" None "car")
      <-> "Speed" = "Speed").
Proof.
  apply (X13_unique_ids_follow_names
           {| TorqueReceiveDataView.email := None;
              TorqueReceiveDataView.unique_id := "car" |}
           [two_ids_one_name] 5 6
           (TorqueSensor__init__ "Speed" None "car")
           (TorqueSensor__init__ "Speed" None "car")); reflexivity.
Defined.

End IdentityExtras.

(** ** Text that is put together from parts *)

Module AppendFacts.
Import Text TextFacts.

Lemma append_nil_r s : s +:+ EmptyString = s.
Proof. induction s as [|c s IH]; simpl; [reflexivity|now rewrite IH]. Qed.

Lemma length_append a b :
  String.length (a +:+ b) = (String.length a + String.length b)%nat.
Proof. induction a as [|c a IH]; simpl; [reflexivity|now rewrite IH]. Qed.

(** Two ways of cutting one text in two: one of the first parts starts
    the other. *)
Lemma append_eq_append a b c d :
  a +:+ b = c +:+ d ->
  (exists p, a = c +:+ p /\ d = p +:+ b)
  \/ (exists p, c = a +:+ p /\ b = p +:+ d).
Proof.
  revert c; induction a as [|x a IH]; intros c H.
  - right. exists c. auto.
  - destruct c as [|y c].
    + left. exists (String x a). auto.
    + simpl in H. injection H as -> H.
      destruct (IH _ H) as [(p & -> & ->)|(p & -> & ->)];
        [left|right]; exists p; auto.
Qed.

Lemma append_suffix p b d :
  d = p +:+ b -> b = drop (String.length d - String.length b) d.
Proof.
  intros ->. rewrite length_append.
  replace (String.length p + String.length b - String.length b)%nat
    with (String.length p) by lia.
  now rewrite drop_append.
Qed.

Lemma append_self p d : d = p +:+ d -> p = EmptyString.
Proof.
  intros H. apply (f_equal String.length) in H. rewrite length_append in H.
  destruct p; [reflexivity|simpl in H; lia].
Qed.

End AppendFacts.

(** ** The Streamlabs sensors *)

Module StreamlabsFacts.
Import Streamlabs AppendFacts.

Section WithImports.
Context `{Imports}.

Lemma getitem_key (data : CoordinatorData) location_id :
  location_id ∈ map fst data -> exists d, getitem data location_id = Returned d.
Proof.
  induction data as [|[k v] data IH]; simpl; intros Hin; [inversion Hin|].
  destruct (String.eqb_spec location_id k) as [->|Hne]; [eauto|].
  apply IH. apply elem_of_cons in Hin as [?|?]; [contradiction|assumption].
Qed.

Lemma getitem_raises (data : CoordinatorData) location_id e :
  getitem data location_id = Raised e ->
  e = KeyError location_id /\ location_id ∉ map fst data.
Proof.
  induction data as [|[k v] data IH]; simpl.
  - intros [= <-]. split; [reflexivity|]. intros Hin. inversion Hin.
  - destruct (String.eqb_spec location_id k) as [->|Hne]; [discriminate|].
    intros [-> Hnotin]%IH. split; [reflexivity|].
    rewrite not_elem_of_cons. auto.
Qed.

Lemma keys_of_SENSORS : map key SENSORS = description_keys.
Proof. reflexivity. Qed.

(** No identifier is made twice: the location and the key can be read
    back from it. *)
Lemma unique_id_inj l1 k1 l2 k2 :
  k1 ∈ description_keys -> k2 ∈ description_keys ->
  l1 +:+ "-" +:+ k1 = l2 +:+ "-" +:+ k2 -> l1 = l2 /\ k1 = k2.
Proof.
  intros H1 H2 E.
  assert (Hcut : forall a b c d,
    a +:+ b = c +:+ d -> b = d -> a = c).
  { intros a b c d Hab ->.
    apply append_eq_append in Hab as [(p & -> & Hp)|(p & -> & Hp)];
      apply append_self in Hp; subst p; now rewrite append_nil_r. }
  assert (Hk : k1 = k2).
  { apply append_eq_append in E as [(p & _ & Hp)|(p & _ & Hp)];
      apply append_suffix in Hp;
      unfold description_keys in H1, H2;
      repeat (apply elem_of_cons in H1 as [->|H1]);
      try (inversion H1; fail);
      repeat (apply elem_of_cons in H2 as [->|H2]);
      try (inversion H2; fail);
      first [reflexivity | discriminate Hp]. }
  split; [|exact Hk]. subst k2. eapply Hcut; [exact E|reflexivity].
Qed.

Lemma collect_locations (data : CoordinatorData) (locations : list string) :
  (forall l, l ∈ locations -> l ∈ map fst data) ->
  exists sensors,
    collect
      (flat_map
         (fun location_id =>
            map (fun description =>
                   StreamLabsSensor__init__ data location_id description)
                SENSORS)
         locations)
    = Returned sensors
    /\ map (fun s => (_location_id s, key (entity_description s))) sensors
       = flat_map (fun l => map (fun k => (l, k)) description_keys) locations
    /\ Forall
         (fun s =>
            entity_description s ∈ SENSORS
            /\ exists d, getitem data (_location_id s) = Returned d
                         /\ s = sensor_of (_location_id s) d (entity_description s))
         sensors.
Proof.
  induction locations as [|l locations IH]; intros Hin.
  - exists []. repeat split. constructor.
  - destruct IH as (rest & Hrest & Hpairs & Hall).
    { intros l' Hl'. apply Hin. now apply elem_of_cons; right. }
    destruct (getitem_key data l) as [d Hd].
    { apply Hin. now apply elem_of_cons; left. }
    exists (map (sensor_of l d) SENSORS ++ rest).
    split; [|split].
    + cbn [flat_map]. unfold StreamLabsSensor__init__ at 1. rewrite Hd.
      cbn [map SENSORS app collect]. simpl in Hrest. rewrite Hrest. reflexivity.
    + rewrite map_app, Hpairs. reflexivity.
    + apply Forall_app. split; [|exact Hall].
      repeat constructor; simpl; try (exists d; split; [exact Hd|reflexivity]).
Qed.

Lemma NoDup_unique_ids (locations : list string) :
  NoDup locations ->
  NoDup (map (fun p : string * string => fst p +:+ "-" +:+ snd p)
           (flat_map (fun l => map (fun k => (l, k)) description_keys) locations)).
Proof.
  induction 1 as [|l locations Hl Hnd IH]; [constructor|].
  cbn [flat_map]. rewrite map_app. apply NoDup_app. split; [|split; [|exact IH]].
  - simpl. repeat constructor; rewrite ?not_elem_of_cons, ?elem_of_nil;
      repeat split; try tauto;
      intros E; apply unique_id_inj in E as [_ E];
      first [discriminate E
            | apply elem_of_cons; now left
            | apply elem_of_cons; right; apply elem_of_cons; now left
            | do 2 (apply elem_of_cons; right); apply elem_of_cons; now left].
  - intros uid Hin1 Hin2.
    apply list_elem_of_In, in_map_iff in Hin1 as ([l1 k1] & <- & Hp1).
    apply list_elem_of_In, in_map_iff in Hin2 as ([l2 k2] & E & Hp2).
    apply in_map_iff in Hp1 as (k & [= <- <-] & Hk1).
    apply in_flat_map in Hp2 as (l' & Hl' & Hp2).
    apply in_map_iff in Hp2 as (k' & [= <- <-] & Hk2).
    simpl in E. apply unique_id_inj in E as [-> _];
      [|now apply list_elem_of_In|now apply list_elem_of_In].
    apply Hl. now apply list_elem_of_In.
Qed.

End WithImports.

End StreamlabsFacts.

(** ** Further properties of the cloud hook address *)

Section CloudhookExtras.
Import Cloudhook.

(** X7. Once [_async_cloudhook_generate_url] has returned an address, the
    entry data hold it under "cloudhook_url" and every other entry is what
    it was; a further call returns the same address without calling the
    cloud service and without changing the entry data. This holds for
    every behaviour of the cloud service. *)
Theorem X7_cloudhook_address_is_made_once_and_kept :
  forall (CONF_WEBHOOK_ID : string) (Cloud : Type)
         (async_delete_cloudhook : string -> Cloud -> option error * Cloud)
         (async_create_cloudhook : string -> Cloud -> (string + error) * Cloud)
         (h : Host) url h',
    _async_cloudhook_generate_url CONF_WEBHOOK_ID
      async_delete_cloudhook async_create_cloudhook h = (inl url, h') ->
    entry_data h' !! CONF_CLOUDHOOK_URL = Some url
    /\ (forall k, k <> CONF_CLOUDHOOK_URL -> entry_data h' !! k = entry_data h !! k)
    /\ _async_cloudhook_generate_url CONF_WEBHOOK_ID
         async_delete_cloudhook async_create_cloudhook h' = (inl url, h').
Proof.
  intros id_key Cloud delete create h url h'.
  unfold _async_cloudhook_generate_url at 1.
  destruct (entry_data h !! CONF_CLOUDHOOK_URL) as [url0|] eqn:Hurl.
  - intros [= <- <-]. repeat split; [assumption|].
    unfold _async_cloudhook_generate_url. now rewrite Hurl.
  - destruct (entry_data h !! id_key) as [webhook_id|]; [|discriminate].
    destruct (delete webhook_id (cloud h)) as [deleted cloud1].
    assert (Hcreate :
      (let '(created, cloud2) := create webhook_id cloud1 in
       match created with
       | inl webhook_url =>
           (inl webhook_url,
            {| entry_data := <[CONF_CLOUDHOOK_URL := webhook_url]> (entry_data h);
               cloud := cloud2 |})
       | inr e => (inr e, {| entry_data := entry_data h; cloud := cloud2 |})
       end) = (inl url, h') ->
      entry_data h' !! CONF_CLOUDHOOK_URL = Some url
      /\ (forall k, k <> CONF_CLOUDHOOK_URL -> entry_data h' !! k = entry_data h !! k)
      /\ _async_cloudhook_generate_url id_key delete create h' = (inl url, h')).
    { destruct (create webhook_id cloud1) as [[webhook_url|e] cloud2];
        [|discriminate].
      intros [= <- <-]. simpl. split; [apply lookup_insert_eq|]. split.
      - intros k Hk. now apply lookup_insert_ne.
      - unfold _async_cloudhook_generate_url. simpl.
        now rewrite lookup_insert_eq. }
    destruct deleted as [[key| |what]|]; try discriminate; exact Hcreate.
Qed.

Lemma X7_witness :
  entry_data registered !! CONF_CLOUDHOOK_URL = Some "https://hooks.example/abc"
  /\ (forall k, k <> CONF_CLOUDHOOK_URL ->
        entry_data registered !! k = entry_data unregistered !! k)
  /\ _async_cloudhook_generate_url "webhook_id" logging_delete logging_create
       registered
     = (inl "https://hooks.example/abc", registered).
Proof.
  apply (X7_cloudhook_address_is_made_once_and_kept "webhook_id" (list string)
           logging_delete logging_create unregistered
           "https://hooks.example/abc" registered).
  reflexivity.
Defined.

(** X8. When [_async_cloudhook_generate_url] raises, the entry data are
    unchanged and held no address. The reason is one of three: the entry
    data have no webhook id, and the cloud service was not called; the
    deletion raised something other than a [ValueError], and the creation
    was not called; or the creation raised, after a deletion that returned
    or raised a [ValueError]. A [ValueError] of the deletion alone never
    makes the call fail. *)
Theorem X8_cloudhook_failure_changes_no_entry :
  forall (CONF_WEBHOOK_ID : string) (Cloud : Type)
         (async_delete_cloudhook : string -> Cloud -> option error * Cloud)
         (async_create_cloudhook : string -> Cloud -> (string + error) * Cloud)
         (h : Host) e h',
    _async_cloudhook_generate_url CONF_WEBHOOK_ID
      async_delete_cloudhook async_create_cloudhook h = (inr e, h') ->
    entry_data h' = entry_data h
    /\ entry_data h !! CONF_CLOUDHOOK_URL = None
    /\ ((entry_data h !! CONF_WEBHOOK_ID = None
         /\ e = MissingKey CONF_WEBHOOK_ID /\ h' = h)
        \/ exists webhook_id,
             entry_data h !! CONF_WEBHOOK_ID = Some webhook_id
             /\ ((async_delete_cloudhook webhook_id (cloud h) = (Some e, cloud h')
                  /\ e <> CloudValueError)
                 \/ exists deleted cloud1,
                      async_delete_cloudhook webhook_id (cloud h) = (deleted, cloud1)
                      /\ (deleted = None \/ deleted = Some CloudValueError)
                      /\ async_create_cloudhook webhook_id cloud1
                         = (inr e, cloud h'))).
Proof.
  intros id_key Cloud delete create h e h'.
  unfold _async_cloudhook_generate_url.
  destruct (entry_data h !! CONF_CLOUDHOOK_URL) as [url0|] eqn:Hurl; [discriminate|].
  destruct (entry_data h !! id_key) as [webhook_id|] eqn:Hid.
  - destruct (delete webhook_id (cloud h)) as [deleted cloud1] eqn:Hd.
    assert (Hcreate : deleted = None \/ deleted = Some CloudValueError ->
      (let '(created, cloud2) := create webhook_id cloud1 in
       match created with
       | inl webhook_url =>
           (inl webhook_url,
            {| entry_data := <[CONF_CLOUDHOOK_URL := webhook_url]> (entry_data h);
               cloud := cloud2 |})
       | inr e => (inr e, {| entry_data := entry_data h; cloud := cloud2 |})
       end) = (inr e, h') ->
      entry_data h' = entry_data h /\ None = (None : option string)
      /\ ((Some webhook_id = None /\ e = MissingKey id_key /\ h' = h)
          \/ exists wid,
               Some webhook_id = Some wid
               /\ ((delete wid (cloud h) = (Some e, cloud h') /\ e <> CloudValueError)
                   \/ exists deleted cloud1,
                        delete wid (cloud h) = (deleted, cloud1)
                        /\ (deleted = None \/ deleted = Some CloudValueError)
                        /\ create wid cloud1 = (inr e, cloud h')))).
    { intros Hdel.
      destruct (create webhook_id cloud1) as [[webhook_url|e0] cloud2] eqn:Hc;
        [discriminate|].
      intros [= <- <-]. simpl. repeat split. right. exists webhook_id.
      split; [reflexivity|]. right. exists deleted, cloud1. auto. }
    destruct deleted as [[key| |what]|].
    + intros [= <- <-]. simpl. repeat split. right. exists webhook_id.
      split; [reflexivity|]. left. split; [assumption|discriminate].
    + apply Hcreate. now right.
    + intros [= <- <-]. simpl. repeat split. right. exists webhook_id.
      split; [reflexivity|]. left. split; [assumption|discriminate].
    + apply Hcreate. now left.
  - intros [= <- <-]. repeat split. left. repeat split.
Qed.

Lemma X8_witness :
  entry_data without_webhook = entry_data without_webhook
  /\ entry_data without_webhook !! CONF_CLOUDHOOK_URL = None
  /\ ((entry_data without_webhook !! "webhook_id" = None
       /\ MissingKey "webhook_id" = MissingKey "webhook_id"
       /\ without_webhook = without_webhook)
      \/ exists webhook_id,
           entry_data without_webhook !! "webhook_id" = Some webhook_id
           /\ ((logging_delete webhook_id (cloud without_webhook)
                = (Some (MissingKey "webhook_id"), cloud without_webhook)
                /\ MissingKey "webhook_id" <> CloudValueError)
               \/ exists deleted cloud1,
                    logging_delete webhook_id (cloud without_webhook)
                    = (deleted, cloud1)
                    /\ (deleted = None \/ deleted = Some CloudValueError)
                    /\ logging_create webhook_id cloud1
                       = (inr (MissingKey "webhook_id"), cloud without_webhook))).
Proof.
  apply (X8_cloudhook_failure_changes_no_entry "webhook_id" (list string)
           logging_delete logging_create without_webhook
           (MissingKey "webhook_id") without_webhook).
  reflexivity.
Defined.

End CloudhookExtras.

(** ** Further properties of the Streamlabs sensors *)

Section StreamlabsExtras.
Import Streamlabs StreamlabsFacts.

(** X9. Whatever the coordinator's data hold, [async_setup_entry] raises
    nothing and hands over three sensors for each location: the ones for
    daily, monthly and yearly usage, in this order and location by
    location in the order of the data. Each sensor has the identifier
    made of its location id, a hyphen and the key of its description, and
    a device that is identified by the domain with the location id and
    named after the location. *)
Theorem X9_setup_makes_three_sensors_for_each_location :
  forall (imports : Imports) (data : CoordinatorData),
    exists sensors,
      async_setup_entry data = Returned sensors
      /\ map (fun s => (_location_id s, key (entity_description s))) sensors
         = flat_map
             (fun l => [(l, "daily_usage"); (l, "monthly_usage"); (l, "yearly_usage")])
             (map fst data)
      /\ length sensors = (3 * length data)%nat
      /\ Forall
           (fun s =>
              entity_description s ∈ SENSORS
              /\ _attr_unique_id s
                 = _location_id s +:+ "-" +:+ key (entity_description s)
              /\ identifiers (_attr_device_info s) = [(DOMAIN, _location_id s)]
              /\ exists d,
                   getitem data (_location_id s) = Returned d
                   /\ device_name (_attr_device_info s) = name d)
           sensors.
Proof.
  intros imports data.
  destruct (collect_locations data (map fst data)) as (sensors & Hrun & Hpairs & Hall);
    [auto|].
  exists sensors. split; [exact Hrun|]. split; [exact Hpairs|]. split.
  - apply (f_equal (@length _)) in Hpairs. rewrite length_map in Hpairs.
    rewrite Hpairs, <- (length_map fst data).
    generalize (map fst data). clear.
    induction l as [|location l IH]; [reflexivity|].
    cbn [flat_map]. rewrite length_app, IH. simpl. lia.
  - eapply Forall_impl; [exact Hall|]. simpl.
    intros s (Hdesc & d & Hd & Hs). split; [assumption|].
    split; [now rewrite Hs at 1|].
    split; [now rewrite Hs at 1|].
    exists d. split; [assumption|]. now rewrite Hs at 1.
Qed.

(** X10. The identifier of a sensor determines its location and its
    description: two of the identifiers made from a location id, a hyphen
    and one of the three keys are equal only when both parts are. So the
    sensors that [async_setup_entry] hands over for data with distinct
    location ids have distinct identifiers. *)
Theorem X10_sensor_identifiers_are_distinct :
  (forall l1 k1 l2 k2,
     k1 ∈ description_keys -> k2 ∈ description_keys ->
     l1 +:+ "-" +:+ k1 = l2 +:+ "-" +:+ k2 -> l1 = l2 /\ k1 = k2)
  /\ (forall (imports : Imports) (data : CoordinatorData) sensors,
        NoDup (map fst data) ->
        async_setup_entry data = Returned sensors ->
        NoDup (map _attr_unique_id sensors)).
Proof.
  split; [apply unique_id_inj|].
  intros imports data sensors Hnd Hrun.
  destruct (collect_locations data (map fst data)) as (sensors' & Hrun' & Hpairs & Hall);
    [auto|].
  unfold async_setup_entry in Hrun. rewrite Hrun' in Hrun. injection Hrun as <-.
  assert (Hids : map _attr_unique_id sensors'
                 = map (fun p : string * string => fst p +:+ "-" +:+ snd p)
                       (map (fun s => (_location_id s, key (entity_description s)))
                            sensors')).
  { rewrite map_map. clear Hpairs Hrun'.
    induction Hall as [|s rest (_ & d & _ & Hs) _ IH]; [reflexivity|].
    simpl. rewrite IH. f_equal. now rewrite Hs at 1. }
  rewrite Hids, Hpairs. now apply NoDup_unique_ids.
Qed.

Lemma X10_witness :
  NoDup (map _attr_unique_id
           (match async_setup_entry two_homes with
            | Returned sensors => sensors
            | Raised _ => []
            end)).
Proof.
  apply (proj2 X10_sensor_identifiers_are_distinct example_imports two_homes).
  - repeat constructor; rewrite ?not_elem_of_cons, ?elem_of_nil;
      repeat split; try tauto; discriminate.
  - reflexivity.
Defined.

(** X11. A sensor handed over by [async_setup_entry] reads its value from
    the data the coordinator holds when it is asked, through the field its
    key names: daily, monthly or yearly usage of its location. With the
    data it was set up from it always has a value; when the location is
    gone from the data, reading the value raises [KeyError] with the
    location id. *)
Theorem X11_native_value_reads_the_current_data :
  forall (imports : Imports) (data : CoordinatorData) sensors s
         (current : CoordinatorData),
    async_setup_entry data = Returned sensors ->
    s ∈ sensors ->
    (exists v, native_value s data = Returned v)
    /\ (forall d,
          getitem current (_location_id s) = Returned d ->
          (key (entity_description s) = "daily_usage"
           /\ native_value s current = Returned (daily_usage d))
          \/ (key (entity_description s) = "monthly_usage"
              /\ native_value s current = Returned (monthly_usage d))
          \/ (key (entity_description s) = "yearly_usage"
              /\ native_value s current = Returned (yearly_usage d)))
    /\ (_location_id s ∉ map fst current ->
        native_value s current = Raised (KeyError (_location_id s))).
Proof.
  intros imports data sensors s current Hrun Hin.
  destruct (collect_locations data (map fst data)) as (sensors' & Hrun' & _ & Hall);
    [auto|].
  unfold async_setup_entry in Hrun. rewrite Hrun' in Hrun. injection Hrun as <-.
  rewrite Forall_forall in Hall. destruct (Hall s Hin) as (Hdesc & d0 & Hd0 & _).
  split; [|split].
  - unfold native_value, location_data. rewrite Hd0. eauto.
  - intros d Hd. unfold native_value, location_data. rewrite Hd.
    unfold SENSORS in Hdesc.
    repeat (apply elem_of_cons in Hdesc as [->|Hdesc]); simpl; auto.
    inversion Hdesc.
  - intros Hgone. unfold native_value, location_data.
    destruct (getitem current (_location_id s)) as [d|e] eqn:Hd.
    + exfalso. apply Hgone. clear -Hd.
      induction current as [|[k v] current IH]; simpl in *; [discriminate|].
      destruct (String.eqb_spec (_location_id s) k) as [->|Hne];
        [now left|right; auto].
    + now apply getitem_raises in Hd as [-> _].
Qed.

Lemma X11_witness : exists v, native_value cabin_monthly two_homes = Returned v.
Proof.
  apply (X11_native_value_reads_the_current_data example_imports two_homes
           (match async_setup_entry two_homes with
            | Returned sensors => sensors
            | Raised _ => []
            end) cabin_monthly two_homes).
  - reflexivity.
  - do 4 (apply elem_of_cons; right). apply elem_of_cons; left. reflexivity.
Defined.

End StreamlabsExtras.
